(** * SKPSHeatmap: the keypoint codec of projects/skps/codecs2/skps_heatmap.py

    A shallow embedding of the codec and of the part of numpy it uses.

    - An [ndarray] is a shape and a row-major data buffer.
    - Floating-point numbers are an abstract scalar type with the arithmetic
      the codec performs; widths (float32/float64) are not distinguished.
    - Python exceptions are the [Raise] results of type [result].
    - The codec object and the array objects handed to [decode] live in a
      store; the methods are state-and-exception computations over it.
    - The two collaborators that are imported from mmpose
      ([generate_unbiased_gaussian_heatmaps] and [get_heatmap_maximum]) are
      parameters of the development; module [Modelled] gives versions of
      them that follow the specification, to run the codec with.

    The first part of the file is the embedding, the second part
    ("Verification") proves the properties of the codec and runs them on
    the scenario of the specification, over the rationals. *)

From stdpp Require Import base tactics option list numbers.
From Stdlib Require Import ZArith QArith Qcanon Lia.

Set Default Proof Using "Type".
Local Open Scope nat_scope.

(** ** Exceptions *)

Inductive exn : Type :=
| AssertionError
| IndexError
| ValueError
| TypeError
| NameError.

Inductive result (A : Type) : Type :=
| Ok (a : A)
| Raise (e : exn).
Arguments Ok {A} a.
Arguments Raise {A} e.

Definition rbind {A B} (r : result A) (k : A → result B) : result B :=
  match r with
  | Ok a => k a
  | Raise e => Raise e
  end.

Global Instance result_ret : MRet result := @Ok.
Global Instance result_bind : MBind result := λ A B k r, rbind r k.

(** ** N-dimensional arrays *)

Record ndarray (A : Type) : Type := NDArray { shape : list nat; data : list A }.
Arguments NDArray {A} shape data.
Arguments shape {A} _.
Arguments data {A} _.

(** Number of elements of an array of shape [sh]. *)
Fixpoint size (sh : list nat) : nat :=
  match sh with
  | [] => 1
  | n :: s => n * size s
  end.

(** Position of the element at index [idx] in the row-major buffer. *)
Fixpoint offset (sh idx : list nat) : nat :=
  match sh, idx with
  | _ :: s, i :: js => i * size s + offset s js
  | _, _ => 0
  end.

(** All indices of an array of shape [sh], in row-major order. *)
Fixpoint indices (sh : list nat) : list (list nat) :=
  match sh with
  | [] => [[]]
  | n :: s => concat ((λ i, cons i <$> indices s) <$> seq 0 n)
  end.

(** [idx] is a valid index of an array of shape [sh]. *)
Definition in_bounds (idx sh : list nat) : Prop := Forall2 lt idx sh.

(** The array of shape [sh] whose element at [idx] is [f idx]. *)
Definition tabulate {A} (sh : list nat) (f : list nat → A) : ndarray A :=
  NDArray sh (f <$> indices sh).

(** Unchecked read; the default value is returned outside the buffer. *)
Definition item {A} `{Inhabited A} (a : ndarray A) (idx : list nat) : A :=
  default inhabitant (data a !! offset (shape a) idx).

Definition ndim {A} (a : ndarray A) : nat := length (shape a).

(** Python index normalisation along an axis of length [n]: a negative index
    counts from the end, anything outside [-n, n) is an error. *)
Definition norm_index (n : nat) (i : Z) : option nat :=
  if bool_decide (0 ≤ i < Z.of_nat n)%Z then Some (Z.to_nat i)
  else if bool_decide (- Z.of_nat n ≤ i < 0)%Z then Some (Z.to_nat (i + Z.of_nat n))
  else None.

Fixpoint norm_indices (sh : list nat) (idx : list Z) : option (list nat) :=
  match sh, idx with
  | [], [] => Some []
  | n :: s, i :: js =>
      match norm_index n i, norm_indices s js with
      | Some i', Some js' => Some (i' :: js')
      | _, _ => None
      end
  | _, _ => None
  end.

(** [a[i0, ..., in]] read as a scalar.  numpy raises IndexError when there
    are more indices than axes or when one of them is out of bounds.  With
    fewer indices than axes the value is a sub-array; the codec adds it to an
    integer and stores the sum in a scalar slot, which is reported here as
    ValueError (numpy's "setting an array element with a sequence"). *)
Definition getitem {A} `{Inhabited A} (a : ndarray A) (idx : list Z) : result A :=
  match norm_indices (take (length idx) (shape a)) idx with
  | None => Raise IndexError
  | Some idx' =>
      if bool_decide (length idx < ndim a) then Raise ValueError
      else Ok (item a idx')
  end.

(** ** Scalars

    The floating-point type of the arrays, with the operations the codec
    applies to it.  [of_int] is the conversion numpy applies to an integer
    operand of a mixed operation, [to_int32] is [astype(np.int32)]. *)

Class Scalar (F : Type) : Type := {
  fzero : F;
  fone : F;
  fadd : F → F → F;
  fsub : F → F → F;
  fmul : F → F → F;
  fdiv : F → F → F;
  of_int : Z → F;
  to_int32 : F → Z;
}.

Global Instance Scalar_inhabited `{Scalar F} : Inhabited F := populate fzero.

(** ** The numpy operations used by the codec *)

Section numpy.
Context {A : Type} `{Inhabited A}.

(** [np.ones(shape)], [np.zeros_like(a)], [a.copy()], [a[None]],
    [np.expand_dims(a, axis=-1)]. *)
Definition np_full (sh : list nat) (v : A) : ndarray A := tabulate sh (λ _, v).

Definition np_copy (a : ndarray A) : ndarray A := NDArray (shape a) (data a).

Definition newaxis (a : ndarray A) : ndarray A := NDArray (1 :: shape a) (data a).

Definition expand_dims_last (a : ndarray A) : ndarray A :=
  NDArray (shape a ++ [1]) (data a).

(** [a[i]]: the sub-array at position [i] of the first axis. *)
Definition subarray (a : ndarray A) (i : Z) : result (ndarray A) :=
  match shape a with
  | [] => Raise IndexError
  | n :: s =>
      match norm_index n i with
      | Some i' => Ok (tabulate s (λ idx, item a (i' :: idx)))
      | None => Raise IndexError
      end
  end.

(** [a[:, j]]: position [j] of the second axis, for every position of the
    first. *)
Definition select_axis1 (a : ndarray A) (j : Z) : result (ndarray A) :=
  match shape a with
  | n :: d :: s =>
      match norm_index d j with
      | Some j' =>
          Ok (tabulate (n :: s)
                (λ idx, match idx with
                        | i :: r => item a (i :: j' :: r)
                        | [] => inhabitant
                        end))
      | None => Raise IndexError
      end
  | _ => Raise IndexError
  end.

(** [a[:k, ...]] and [a[k:, ...]] for a non-negative [k]. *)
Definition slice_to (k : nat) (a : ndarray A) : result (ndarray A) :=
  match shape a with
  | [] => Raise IndexError
  | n :: s => Ok (tabulate (min k n :: s) (item a))
  end.

Definition slice_from (k : nat) (a : ndarray A) : result (ndarray A) :=
  match shape a with
  | [] => Raise IndexError
  | n :: s =>
      Ok (tabulate (n - k :: s)
            (λ idx, match idx with
                    | i :: r => item a (k + i :: r)
                    | [] => inhabitant
                    end))
  end.

(** [np.concatenate([a, b], axis=-1)]. *)
Definition concatenate_last (a b : ndarray A) : result (ndarray A) :=
  match reverse (shape a), reverse (shape b) with
  | la :: ra, lb :: rb =>
      if decide (ra = rb) then
        Ok (tabulate (reverse ra ++ [la + lb])
              (λ idx, let pre := take (length ra) idx in
                      let j := idx !!! length ra in
                      if decide (j < la) then item a (pre ++ [j])
                      else item b (pre ++ [j - la])))
      else Raise ValueError
  | _, _ => Raise ValueError
  end.

(** [np.transpose(a, axes)]: axis [m] of the result is axis [axes[m]] of
    [a]. *)
Fixpoint index_of (m : nat) (l : list nat) : nat :=
  match l with
  | [] => 0
  | x :: l' => if decide (x = m) then 0 else S (index_of m l')
  end.

Definition is_axes (n : nat) (axes : list nat) : bool :=
  bool_decide (length axes = n) && forallb (λ m, existsb (Nat.eqb m) axes) (seq 0 n).

Definition transpose (a : ndarray A) (axes : list nat) : result (ndarray A) :=
  if is_axes (ndim a) axes then
    Ok (tabulate ((λ m, shape a !!! m) <$> axes)
          (λ idx, item a ((λ m, idx !!! index_of m axes) <$> seq 0 (ndim a))))
  else Raise ValueError.

(** [a[i][j] = v] for a scalar [v]: [a[i]] is a view of row [i], and the
    assignment fills position [j] of it. *)
Definition setitem2 (a : ndarray A) (i j : Z) (v : A) : result (ndarray A) :=
  match shape a with
  | [] => Raise IndexError
  | [n] => match norm_index n i with
           | Some _ => Raise TypeError
           | None => Raise IndexError
           end
  | n :: m :: s =>
      match norm_index n i with
      | None => Raise IndexError
      | Some i' =>
          match norm_index m j with
          | None => Raise IndexError
          | Some j' =>
              Ok (tabulate (shape a)
                    (λ idx, if decide (take 2 idx = [i'; j']) then v else item a idx))
          end
      end
  end.
End numpy.

(** Broadcasting of two shapes, aligned on their last axes. *)
Fixpoint broadcast_rev (s1 s2 : list nat) : option (list nat) :=
  match s1, s2 with
  | [], s | s, [] => Some s
  | a :: s1', b :: s2' =>
      match (if decide (a = b) then Some a
             else if decide (a = 1) then Some b
             else if decide (b = 1) then Some a
             else None), broadcast_rev s1' s2' with
      | Some d, Some s => Some (d :: s)
      | _, _ => None
      end
  end.

Definition broadcast_shapes (s1 s2 : list nat) : option (list nat) :=
  reverse <$> broadcast_rev (reverse s1) (reverse s2).

(** The index of an operand of shape [sh] that takes part in the element
    [idx] of the broadcast result. *)
Definition bindex (sh idx : list nat) : list nat :=
  zip_with (λ d i, if decide (d = 1) then 0 else i) sh (drop (length idx - length sh) idx).

(** An elementwise binary operation with broadcasting. *)
Definition broadcast2 {A B C} `{Inhabited A, Inhabited B}
    (f : A → B → C) (a : ndarray A) (b : ndarray B) : result (ndarray C) :=
  match broadcast_shapes (shape a) (shape b) with
  | Some sh =>
      Ok (tabulate sh (λ idx, f (item a (bindex (shape a) idx))
                                (item b (bindex (shape b) idx))))
  | None => Raise ValueError
  end.

(** [np.meshgrid(np.arange(0, n0), np.arange(0, n1), indexing='ij')]. *)
Definition arange (n : Z) : ndarray Z :=
  tabulate [Z.to_nat n] (λ idx, Z.of_nat (idx !!! 0)).

Definition meshgrid_ij (a b : ndarray Z) : ndarray Z * ndarray Z :=
  let sh := [size (shape a); size (shape b)] in
  (tabulate sh (λ idx, item a [idx !!! 0]),
   tabulate sh (λ idx, item b [idx !!! 1])).

Section float_ops.
Context {F : Type} `{Scalar F}.

Definition np_true_divide : ndarray F → ndarray F → result (ndarray F) :=
  broadcast2 fdiv.
Definition np_multiply : ndarray F → ndarray F → result (ndarray F) :=
  broadcast2 fmul.
(** A float array minus an integer array. *)
Definition np_subtract_int : ndarray F → ndarray Z → result (ndarray F) :=
  broadcast2 (λ x n, fsub x (of_int n)).

Definition astype_int32 (a : ndarray F) : ndarray Z :=
  tabulate (shape a) (λ idx, to_int32 (item a idx)).
End float_ops.

(** ** The store and the computations over it *)

(** A reference to an array object of the store. *)
Abbreviation ref := nat (only parsing).

Section codec.
Context {F : Type} `{Scalar F}.

(** The attributes set by [__init__]. *)
Record SKPSHeatmap : Type := {
  input_size : Z * Z;
  heatmap_size : Z * Z;
  sigma : F;
  scale_factor : ndarray F;
  y_range : ndarray Z;
  x_range : ndarray Z;
}.

(** The codec object and the float arrays reachable by the caller and by
    the collaborators. *)
Record state : Type := State { self : SKPSHeatmap; heap : list (ndarray F) }.

Definition M (A : Type) : Type := state → result A * state.

Definition ret {A} (a : A) : M A := λ st, (Ok a, st).

(** Sequencing: an exception ends the computation and keeps the store. *)
Definition bind {A B} (m : M A) (k : A → M B) : M B :=
  λ st, match m st with
        | (Ok a, st') => k a st'
        | (Raise e, st') => (Raise e, st')
        end.

Definition lift {A} (r : result A) : M A := λ st, (r, st).

Definition get_self : M SKPSHeatmap := λ st, (Ok (self st), st).

(** A new array object. *)
Definition alloc (a : ndarray F) : M ref :=
  λ st, (Ok (length (heap st)), State (self st) (heap st ++ [a])).

(** The contents of an array object; a reference to no object does not
    arise in a Python program and is reported as NameError. *)
Definition read (r : ref) : M (ndarray F) :=
  λ st, match heap st !! r with
        | Some a => (Ok a, st)
        | None => (Raise NameError, st)
        end.

(** In-place replacement of the contents of an array object. *)
Definition write (r : ref) (a : ndarray F) : M unit :=
  λ st, (Ok tt, State (self st) (<[r := a]> (heap st))).
End codec.

Arguments SKPSHeatmap F : clear implicits.
Arguments state F : clear implicits.
Arguments M F A : clear implicits.

Global Instance M_ret {F} : MRet (M F) := λ A a, ret a.
Global Instance M_bind {F} : MBind (M F) := λ A B k m, bind m k.

(** [for i in range(n): s = body(i, s)], stopping at the first exception. *)
Fixpoint for_each {S} (l : list nat) (body : nat → S → result S) (s : S) : result S :=
  match l with
  | [] => Ok s
  | i :: l' => rbind (body i s) (for_each l' body)
  end.

Definition for_range {S} (n : nat) (body : nat → S → result S) (s : S) : result S :=
  for_each (seq 0 n) body s.

(** ** The codec *)

(** The dictionary returned by [encode]. *)
Record encoded (F : Type) : Type := Encoded {
  heatmaps : ndarray F;
  keypoint_weights : ndarray F;
  displacements : ndarray F;
}.
Arguments Encoded {F} _ _ _.
Arguments heatmaps {F} _.
Arguments keypoint_weights {F} _.
Arguments displacements {F} _.

Section SKPSHeatmap.
Context {F : Type} `{Scalar F}.

(** The collaborators imported from mmpose.

    The heatmap generator is a function of the contents of its arguments:
    it may raise, and it returns the heatmaps and the keypoint weights.

    The peak finder is handed an array object.  It is given by what it
    returns (or raises) for the contents of that object together with the
    contents it leaves in it: nothing is assumed about whether it writes
    into its argument. *)
Variable generate_unbiased_gaussian_heatmaps :
  Z * Z → ndarray F → ndarray F → F → result (ndarray F * ndarray F).
Variable get_heatmap_maximum :
  ndarray F → result (ndarray F * ndarray F) * ndarray F.

Definition call_get_heatmap_maximum (heatmaps : ref) : M F (ndarray F * ndarray F) :=
  a ← read heatmaps;
  let '(res, a') := get_heatmap_maximum a in
  write heatmaps a';;
  lift res.

(** [__init__]: the scale factor and the two coordinate grids. *)
Definition __init__ (input_size heatmap_size : Z * Z) (sigma : F) : SKPSHeatmap F :=
  let grids := meshgrid_ij (arange heatmap_size.2) (arange heatmap_size.1) in
  {| input_size := input_size;
     heatmap_size := heatmap_size;
     sigma := sigma;
     scale_factor :=
       NDArray [2] [fdiv (of_int input_size.1) (of_int heatmap_size.1);
                    fdiv (of_int input_size.2) (of_int heatmap_size.2)];
     y_range := grids.1;
     x_range := grids.2 |}.

(** [N, K, _ = keypoints.shape] and [K, H, W = heatmaps.shape]. *)
Definition unpack_shape3 {A} (a : ndarray A) : result (nat * nat * nat) :=
  match shape a with
  | [n0; n1; n2] => Ok (n0, n1, n2)
  | _ => Raise ValueError
  end.

Definition generate_offside_heatmap (heatmap_size : Z * Z) (keypoints : ndarray F) :
    M F (ndarray F) :=
  self ← get_self;
  lift (
    '(N, K, _) ← unpack_shape3 keypoints;
    let '(W, H) := heatmap_size in
    keypoints ← subarray keypoints 0;
    kx ← select_axis1 keypoints 0;
    offside_x ← np_subtract_int kx (expand_dims_last (x_range self));
    ky ← select_axis1 keypoints 1;
    offside_y ← np_subtract_int ky (expand_dims_last (y_range self));
    offside_map ← concatenate_last offside_x offside_y;
    transpose offside_map [2; 0; 1]).

(** [assert keypoints.shape[0] == 1]. *)
Definition assert_single_instance (keypoints : ndarray F) : result () :=
  match shape keypoints with
  | [] => Raise IndexError
  | n :: _ => if decide (n = 1) then Ok () else Raise AssertionError
  end.

(** [encode] only reads its arguments and the generator is a function of
    their contents, so the two arrays are taken by value. *)
Definition encode (keypoints : ndarray F) (keypoints_visible : option (ndarray F)) :
    M F (encoded F) :=
  self ← get_self;
  lift (assert_single_instance keypoints);;
  let keypoints_visible :=
    match keypoints_visible with
    | None => np_full (take 2 (shape keypoints)) fone
    | Some v => v
    end in
  scaled ← lift (np_true_divide keypoints (scale_factor self));
  '(heatmaps, keypoint_weights) ←
    lift (generate_unbiased_gaussian_heatmaps
            (heatmap_size self) scaled keypoints_visible (sigma self));
  scaled ← lift (np_true_divide keypoints (scale_factor self));
  offside_heatmap ← generate_offside_heatmap (heatmap_size self) scaled;
  keypoint_weights ← lift (subarray keypoint_weights 0);
  mret (Encoded heatmaps keypoint_weights offside_heatmap).

(** [[x, y] = keypoints_interger[i]] together with the truth value of
    [x < 0 or y < 0].  A row that is a numpy scalar cannot be unpacked
    (TypeError); a row whose first axis is not of length 2 has too few or too
    many values (ValueError).  A row of shape (2,) gives two integers; a row
    of shape (2, 1, ..., 1) gives two arrays of one element each, which the
    comparison, the index expression and the assignment of the loop treat
    as that element; with any other number of elements the truth value of
    [x < 0] is an error (ValueError; for an empty array as of numpy
    2.2). *)
Definition unpack_row2 (a : ndarray Z) (i : nat) : result (Z * Z) :=
  row ← subarray a (Z.of_nat i);
  match shape row, data row with
  | [], _ => Raise TypeError
  | 2 :: _, [x; y] => Ok (x, y)
  | _, _ => Raise ValueError
  end.

(** The body of the loop of [decode]. *)
Definition decode_keypoint (offside_x offside_y : ndarray F) (keypoints_interger : ndarray Z)
    (i : nat) (keypoints_decimal : ndarray F) : result (ndarray F) :=
  '(x, y) ← unpack_row2 keypoints_interger i;
  let '(x, y) := if bool_decide (x < 0 ∨ y < 0)%Z then (0, 0)%Z else (x, y) in
  ox ← getitem offside_x [Z.of_nat i; y; x];
  keypoints_decimal ← setitem2 keypoints_decimal (Z.of_nat i) 0 (fadd (of_int x) ox);
  oy ← getitem offside_y [Z.of_nat i; y; x];
  setitem2 keypoints_decimal (Z.of_nat i) 1 (fadd (of_int y) oy).

Definition decode (encoded offside : ref) : M F (ndarray F * ndarray F) :=
  self ← get_self;
  heatmaps ← (a ← read encoded; alloc (np_copy a));
  offside ← (a ← read offside; alloc (np_copy a));
  hm ← read heatmaps;
  '(K, _, _) ← lift (unpack_shape3 hm);
  '(keypoints, scores) ← call_get_heatmap_maximum heatmaps;
  off ← read offside;
  offside_x ← lift (slice_to K off);
  offside_y ← lift (slice_from K off);
  let keypoints_interger := astype_int32 keypoints in
  let keypoints_decimal := np_full (shape keypoints) fzero in
  keypoints_decimal ←
    lift (for_range K (decode_keypoint offside_x offside_y keypoints_interger)
            keypoints_decimal);
  keypoints_decimal ← lift (np_multiply keypoints_decimal (scale_factor self));
  mret (newaxis keypoints_decimal, newaxis scores).
End SKPSHeatmap.

(** ** Vocabulary of the statements *)

Section vocabulary.
Context {F : Type} `{Scalar F}.
Variable gen : Z * Z → ndarray F → ndarray F → F → result (ndarray F * ndarray F).
Variable ghm : ndarray F → result (ndarray F * ndarray F) * ndarray F.

(** The visibilities [encode] passes to the heatmap generator. *)
Definition visible_or_ones (keypoints : ndarray F) (vis : option (ndarray F)) : ndarray F :=
  match vis with
  | None => np_full (take 2 (shape keypoints)) fone
  | Some v => v
  end.

(** The integer peak location [keypoints_interger[k]]. *)
Definition peak (keypoints : ndarray F) (k : nat) : Z * Z :=
  (to_int32 (item keypoints [k; 0]), to_int32 (item keypoints [k; 1])).

(** The integer peak location of keypoint [i] after the clamp of
    negative coordinates. *)
Definition clamped_peak (keypoints : ndarray F) (i : nat) : Z * Z :=
  let x := to_int32 (item keypoints [i; 0]) in
  let y := to_int32 (item keypoints [i; 1]) in
  if bool_decide (x < 0 ∨ y < 0)%Z then (0, 0)%Z else (x, y).

(** Every keypoint's clamped peak is a cell of an H x W grid. *)
Definition peaks_in_grid (K Hn Wn : nat) (keypoints : ndarray F) : Prop :=
  ∀ i, i < K →
    ((clamped_peak keypoints i).1 < Z.of_nat Wn)%Z ∧
    ((clamped_peak keypoints i).2 < Z.of_nat Hn)%Z.

(** Keypoint [i] can be decoded: its channels [i] and [K + i] exist in the
    displacement field and its clamped peak is a cell of the field. *)
Definition decodable (C K Hn Wn : nat) (keypoints : ndarray F) (i : nat) : Prop :=
  K + i < C ∧
  ((clamped_peak keypoints i).1 < Z.of_nat Wn)%Z ∧
  ((clamped_peak keypoints i).2 < Z.of_nat Hn)%Z.

Global Instance decodable_dec C K Hn Wn keypoints i :
  Decision (decodable C K Hn Wn keypoints i).
Proof. unfold decodable. apply _. Defined.

(** The coordinates of keypoint [i] before rescaling: the clamped peak
    plus the offsets read at the peak cell, in (channel, row, col)
    order. *)
Definition corrected (K : nat) (off keypoints : ndarray F) (i : nat) : F * F :=
  let x := (clamped_peak keypoints i).1 in
  let y := (clamped_peak keypoints i).2 in
  (fadd (of_int x) (item off [i; Z.to_nat y; Z.to_nat x]),
   fadd (of_int y) (item off [K + i; Z.to_nat y; Z.to_nat x])).

(** What [decode] computes from the shape of the heatmaps, the contents of
    the displacement field and the answer of the peak finder. *)
Definition decode_values (scale : ndarray F) (K : nat) (off : ndarray F)
    (res : result (ndarray F * ndarray F)) : result (ndarray F * ndarray F) :=
  '(keypoints, scores) ← res;
  offside_x ← slice_to K off;
  offside_y ← slice_from K off;
  keypoints_decimal ←
    for_range K (decode_keypoint offside_x offside_y (astype_int32 keypoints))
      (np_full (shape keypoints) fzero);
  keypoints_decimal ← np_multiply keypoints_decimal scale;
  Ok (newaxis keypoints_decimal, newaxis scores).

(** The heatmaps and the displacements returned by [encode] are handed to
    [decode]. *)
Definition encode_then_decode (keypoints : ndarray F) (keypoints_visible : option (ndarray F)) :
    M F (ndarray F * ndarray F) :=
  enc ← encode gen keypoints keypoints_visible;
  h ← alloc (heatmaps enc);
  d ← alloc (displacements enc);
  decode ghm h d.

(** [st'] has the same codec object as [st] and the same contents in every
    array object below [n]. *)
Definition frame (n : nat) (st st' : state F) : Prop :=
  self st' = self st ∧
  length (heap st) ≤ length (heap st') ∧
  ∀ r, r < n → heap st' !! r = heap st !! r.

(** A computation that leaves the objects below [n] alone and whose
    results satisfy [Q]. *)
Definition preserves {A} (n : nat) (m : M F A) (Q : A → Prop) : Prop :=
  ∀ st, n ≤ length (heap st) →
    frame n st (m st).2 ∧ ∀ a, (m st).1 = Ok a → Q a.

(** None of the array operations raises AssertionError. *)
Definition no_assert {A} (r : result A) : Prop := r ≠ Raise AssertionError.
End vocabulary.

Arguments frame F n st st' : clear implicits.
Arguments preserves F {A} n m Q.

(** ** Collaborators to run the codec with *)

Module Modelled.
Section collaborators.
Context {F : Type} `{Scalar F}.

(** The comparison [x < y] of the scalar type. *)
Variable fltb : F → F → bool.

(** The position and the value of the first maximum of a list. *)
Definition argmax (l : list F) : nat * F :=
  match l with
  | [] => (0, fzero)
  | v :: l' =>
      (foldl (λ '(best, bv, i) w, if fltb bv w then (i, w, S i) else (best, bv, S i))
             (0, v, 1) l').1
  end.

(** Modelled from the spec: the peak finder [get_heatmap_maximum] of
    mmpose.codecs.utils.post_processing, which is not part of this source
    tree.  For each of the K channels it returns the (col, row) location of
    the first maximum in row-major order and the maximum itself; a channel
    whose maximum is not positive gets the location (-1, -1).  It does not
    write into its argument. *)
Definition get_heatmap_maximum (heatmaps : ndarray F) :
    result (ndarray F * ndarray F) * ndarray F :=
  (match shape heatmaps with
   | [K; H; W] =>
       if decide (H * W = 0) then Raise ValueError
       else
         let peak k := argmax (take (H * W) (drop (k * (H * W)) (data heatmaps))) in
         Ok (tabulate [K; 2]
               (λ idx, let '(pos, v) := peak (idx !!! 0) in
                       if fltb fzero v then
                         of_int (Z.of_nat (if decide (idx !!! 1 = 0)
                                           then pos `mod` W else pos `div` W))
                       else of_int (-1)),
             tabulate [K] (λ idx, (peak (idx !!! 0)).2))
   | _ => Raise ValueError
   end, heatmaps).

(** A keypoint contributes to the heatmaps when its visibility is at least
    1/2 and its location lies in [0, W) x [0, H). *)
Definition contributes (heatmap_size : Z * Z) (keypoints keypoints_visible : ndarray F)
    (k : nat) : bool :=
  let x := item keypoints [0; k; 0] in
  let y := item keypoints [0; k; 1] in
  negb (fltb (item keypoints_visible [0; k]) (fdiv fone (of_int 2))) &&
  negb (fltb x fzero) && fltb x (of_int heatmap_size.1) &&
  negb (fltb y fzero) && fltb y (of_int heatmap_size.2).

(** Modelled from the spec: the heatmap generator
    [generate_unbiased_gaussian_heatmaps] of
    mmpose.codecs.utils.gaussian_heatmap, which is not part of this source
    tree.  A keypoint that contributes has its visibility as weight, and its
    response at cell (row, col) is a function of the squared distance from
    the cell to the keypoint's sub-pixel location that is 1 at distance 0
    and decreases with it.  The Gaussian exp(-t) is replaced here by
    1 / (1 + t), which has the same level sets and the same maxima and
    needs no exponential.  Any other keypoint has weight 0 and an all-zero
    heatmap. *)
Definition generate_unbiased_gaussian_heatmaps
    (heatmap_size : Z * Z) (keypoints keypoints_visible : ndarray F) (sigma : F) :
    result (ndarray F * ndarray F) :=
  match shape keypoints with
  | [N; K; _] =>
      let '(W, H) := heatmap_size in
      Ok (tabulate [K; Z.to_nat H; Z.to_nat W]
            (λ idx,
               let k := idx !!! 0 in
               if contributes heatmap_size keypoints keypoints_visible k then
                 let dx := fsub (of_int (Z.of_nat (idx !!! 2))) (item keypoints [0; k; 0]) in
                 let dy := fsub (of_int (Z.of_nat (idx !!! 1))) (item keypoints [0; k; 1]) in
                 fdiv fone
                   (fadd fone
                      (fdiv (fadd (fmul dx dx) (fmul dy dy))
                            (fmul (fmul (of_int 2) sigma) sigma)))
               else fzero),
          tabulate [N; K]
            (λ idx,
               if contributes heatmap_size keypoints keypoints_visible (idx !!! 1)
               then item keypoints_visible idx
               else fzero))
  | _ => Raise ValueError
  end.
End collaborators.
End Modelled.

(** Exact rational arithmetic. *)
Module Rational.
Local Open Scope Qc_scope.

Definition Qc_of_Z (z : Z) : Qc := Q2Qc (inject_Z z).

(** Truncation toward zero. *)
Definition Qc_trunc (q : Qc) : Z := Z.quot (Qnum (this q)) (Zpos (Qden (this q))).

Definition Qc_ltb (x y : Qc) : bool :=
  match (this x ?= this y)%Q with Lt => true | _ => false end.

Global Instance Qc_Scalar : Scalar Qc := {|
  fzero := 0;
  fone := 1;
  fadd := Qcplus;
  fsub := Qcminus;
  fmul := Qcmult;
  fdiv := Qcdiv;
  of_int := Qc_of_Z;
  to_int32 := Qc_trunc;
|}.

Definition get_heatmap_maximum :
    ndarray Qc → result (ndarray Qc * ndarray Qc) * ndarray Qc :=
  Modelled.get_heatmap_maximum Qc_ltb.

Definition generate_unbiased_gaussian_heatmaps :
    Z * Z → ndarray Qc → ndarray Qc → Qc → result (ndarray Qc * ndarray Qc) :=
  Modelled.generate_unbiased_gaussian_heatmaps Qc_ltb.

Definition qarray (sh : list nat) (l : list Z) : ndarray Qc :=
  NDArray sh (Qc_of_Z <$> l).
End Rational.

(** ** A concrete codec to run the statements on

    The scenario of the specification: one keypoint at (5.0, 3.0) in an
    8 x 8 image, a 4 x 4 heatmap, hence a scale factor of (2, 2) and the
    scaled keypoint (2.5, 1.5). *)

Module Scenario.
Import Rational.

Definition codec : SKPSHeatmap Qc := __init__ (8, 8)%Z (4, 4)%Z (Qc_of_Z 2).

Definition keypoint : ndarray Qc := qarray [1; 1; 2] [5; 3]%Z.

Definition invisible : ndarray Qc := qarray [1; 1] [0]%Z.

Definition two_instances : ndarray Qc := qarray [2; 1; 2] [5; 3; 5; 3]%Z.

(** The codec with no array object yet. *)
Definition fresh : state Qc := State codec [].

(** The dictionary [encode] returns for the keypoint. *)
Definition the_encoded (vis : option (ndarray Qc)) : encoded Qc :=
  match (encode generate_unbiased_gaussian_heatmaps keypoint vis fresh).1 with
  | Ok e => e
  | Raise _ => Encoded keypoint keypoint keypoint
  end.

(** The store of a caller that holds the heatmaps (object 0) and the
    displacements (object 1) of that dictionary. *)
Definition holding (vis : option (ndarray Qc)) : state Qc :=
  State codec [heatmaps (the_encoded vis); displacements (the_encoded vis)].

(** What the peak finder answers for the heatmaps of an array object. *)
Definition peaks_of (heatmaps : ndarray Qc) : ndarray Qc * ndarray Qc :=
  match (get_heatmap_maximum heatmaps).1 with
  | Ok p => p
  | Raise _ => (heatmaps, heatmaps)
  end.

(** An all-zero heatmap with a displacement field that is 1 everywhere. *)
Definition flat : state Qc :=
  State codec [np_full [1; 4; 4] 0%Qc; qarray [2; 4; 4] (replicate 32 1%Z)].

(** The heatmaps of the keypoint with a displacement field of three
    channels, and with one of a single channel. *)
Definition three_channels : state Qc :=
  State codec [heatmaps (the_encoded None); qarray [3; 4; 4] (replicate 48 1%Z)].

Definition one_channel : state Qc :=
  State codec [heatmaps (the_encoded None); qarray [1; 4; 4] (replicate 16 1%Z)].

(** A peak finder that reports the column 4 of a grid of width 4. *)
Definition off_grid_peak_finder (heatmaps : ndarray Qc) :
    result (ndarray Qc * ndarray Qc) * ndarray Qc :=
  (Ok (qarray [1; 2] [4; 1]%Z, qarray [1] [1]%Z), heatmaps).

(** A peak finder that answers as [get_heatmap_maximum] and zeroes the
    array it was handed. *)
Definition scribbling_peak_finder (heatmaps : ndarray Qc) :
    result (ndarray Qc * ndarray Qc) * ndarray Qc :=
  ((get_heatmap_maximum heatmaps).1, np_full (shape heatmaps) 0%Qc).
End Scenario.

(** ** Further inputs

    Keypoints, stores and collaborators for the cases next to the
    scenario: keypoints with another number of instances or coordinates, a
    displacement field whose value depends on the cell, malformed arrays,
    and collaborators that fail or answer with an unexpected layout. *)

Module Cases.
Import Rational.

(** Two instances of one keypoint with three coordinates each. *)
Definition two_instances_3d : ndarray Qc := qarray [2; 1; 3] [5; 3; 9; 7; 7; 7]%Z.

(** Keypoints without the instance axis, without an instance, and with a
    single coordinate. *)
Definition no_instance_axis : ndarray Qc := qarray [1; 2] [5; 3]%Z.

Definition no_instance : ndarray Qc := qarray [0; 1; 2] [].

Definition single_coordinate : ndarray Qc := qarray [1; 1; 1] [6]%Z.

Definition three_coordinates : ndarray Qc := qarray [1; 1; 3] [5; 3; 1]%Z.

(** A displacement field of two channels whose value at (row, col) is
    col + 1. *)
Definition ramp : ndarray Qc :=
  qarray [2; 4; 4] (flat_map (λ _, [1; 2; 3; 4]%Z) (seq 0 8)).

Definition ramped : state Qc := State Scenario.codec [np_full [1; 4; 4] 0%Qc; ramp].

(** Heatmaps without the channel axis. *)
Definition rank_two : state Qc := State Scenario.codec [np_full [4; 4] 0%Qc; ramp].

(** A displacement field without the column axis. *)
Definition flat_field : state Qc :=
  State Scenario.codec
    [heatmaps (Scenario.the_encoded None); qarray [2; 4] (replicate 8 1%Z)].

(** Another codec with the scale factor (2, 2): a 16 x 16 image, an 8 x 8
    heatmap and sigma 3. *)
Definition other_codec : SKPSHeatmap Qc := __init__ (16, 16)%Z (8, 8)%Z (Qc_of_Z 3).

Definition holding_other : state Qc :=
  State other_codec
    [heatmaps (Scenario.the_encoded None); displacements (Scenario.the_encoded None)].

(** A heatmap generator and a peak finder that raise. *)
Definition failing_generator (heatmap_size : Z * Z) (keypoints keypoints_visible : ndarray Qc)
    (sigma : Qc) : result (ndarray Qc * ndarray Qc) :=
  Raise TypeError.

Definition failing_peak_finder (heatmaps : ndarray Qc) :
    result (ndarray Qc * ndarray Qc) * ndarray Qc :=
  (Raise TypeError, heatmaps).

(** A peak finder that reports the column 3 and the row -1. *)
Definition one_sided_peak_finder (heatmaps : ndarray Qc) :
    result (ndarray Qc * ndarray Qc) * ndarray Qc :=
  (Ok (qarray [1; 2] [3; -1]%Z, qarray [1] [1]%Z), heatmaps).

(** A peak finder that reports three values per location. *)
Definition three_column_peak_finder (heatmaps : ndarray Qc) :
    result (ndarray Qc * ndarray Qc) * ndarray Qc :=
  (Ok (qarray [1; 3] [2; 1; 0]%Z, qarray [1] [1]%Z), heatmaps).

(** A displacement field of two channels with a different value in every
    cell: 16 c + 4 row + col + 1 at (c, row, col). *)
Definition numbered : ndarray Qc := qarray [2; 4; 4] (Z.of_nat <$> seq 1 32).

(** The heatmaps of the keypoint, and an all-zero heatmap, with that
    field. *)
Definition numbered_field : state Qc :=
  State Scenario.codec [heatmaps (Scenario.the_encoded None); numbered].

Definition numbered_flat : state Qc :=
  State Scenario.codec [np_full [1; 4; 4] 0%Qc; numbered].

(** A displacement array without axes. *)
Definition no_axes : state Qc :=
  State Scenario.codec [heatmaps (Scenario.the_encoded None); qarray [] [1]%Z].

(** A peak finder that reports its one location as a column of two
    one-element rows, shape (1, 2, 1): the column 2 and the row 1. *)
Definition column_peak_finder (heatmaps : ndarray Qc) :
    result (ndarray Qc * ndarray Qc) * ndarray Qc :=
  (Ok (qarray [1; 2; 1] [2; 1]%Z, qarray [1] [1]%Z), heatmaps).

(** A peak finder that reports the column 4 of a grid of width 4 and the
    row -1. *)
Definition beyond_and_negative_peak_finder (heatmaps : ndarray Qc) :
    result (ndarray Qc * ndarray Qc) * ndarray Qc :=
  (Ok (qarray [1; 2] [4; -1]%Z, qarray [1] [1]%Z), heatmaps).
End Cases.

(** ** Proof automation *)

(** Closes [in_bounds idx sh] for index and shape lists of the same, known
    length. *)
Ltac solve_bounds :=
  unfold in_bounds; repeat (apply Forall2_cons; [lia|]); apply Forall2_nil.

(** One step of the exception monad. *)
Ltac rstep := cbn [mbind result_bind rbind].

(** Closes [Ok p = Ok q] for two closed rationals with the same value. *)
Ltac qc_eq := f_equal; apply Qc_is_canon; vm_compute; reflexivity.

(** * Verification *)

(** ** Facts about the row-major layout *)

Lemma length_indices sh : length (indices sh) = size sh.
Proof.
  induction sh as [|n s IH]; [done|]. simpl.
  generalize 0. induction n as [|n IHn]; intros b; simpl; [done|].
  rewrite length_app, length_fmap, IH, IHn. done.
Qed.

Lemma lookup_concat_uniform {A} (ls : list (list A)) (m i o : nat) (l : list A) :
  Forall (λ l', length l' = m) ls →
  ls !! i = Some l → o < m →
  concat ls !! (i * m + o) = l !! o.
Proof.
  intros Hlen. revert i. induction Hlen as [|l' ls Hl' _ IH]; intros i Hi Ho; [done|].
  destruct i as [|i]; simpl in *.
  - simplify_eq. rewrite lookup_app_l by lia. done.
  - rewrite lookup_app_r by lia.
    replace (m + i * m + o - length l') with (i * m + o) by lia. by apply IH.
Qed.

Lemma offset_lt sh idx : in_bounds idx sh → offset sh idx < size sh.
Proof.
  intros Hb. induction Hb as [|i n js s Hi _ IH]; simpl; [lia|].
  assert (i * size s + size s ≤ n * size s) by nia. lia.
Qed.

Lemma lookup_indices sh idx :
  in_bounds idx sh → indices sh !! offset sh idx = Some idx.
Proof.
  intros Hb. induction Hb as [|i n js s Hi Hjs IH]; [done|]. simpl.
  rewrite (lookup_concat_uniform _ (size s) i _ (cons i <$> indices s)).
  - rewrite list_lookup_fmap, IH. done.
  - apply Forall_fmap, Forall_forall. intros j _. simpl.
    by rewrite length_fmap, length_indices.
  - rewrite list_lookup_fmap, lookup_seq_lt by done. done.
  - by apply offset_lt.
Qed.

Lemma item_tabulate {A} `{Inhabited A} sh (f : list nat → A) idx :
  in_bounds idx sh → item (tabulate sh f) idx = f idx.
Proof.
  intros Hb. unfold item, tabulate; simpl.
  by rewrite list_lookup_fmap, lookup_indices.
Qed.

Lemma shape_tabulate {A} sh (f : list nat → A) : shape (tabulate sh f) = sh.
Proof. done. Qed.

(** ** Reading the results of the numpy operations *)

Lemma norm_index_nat (n i : nat) : i < n → norm_index n (Z.of_nat i) = Some i.
Proof.
  intros Hi. unfold norm_index. rewrite bool_decide_eq_true_2 by lia.
  by rewrite Nat2Z.id.
Qed.

Lemma norm_index_in_range (n : nat) (i : Z) :
  (0 ≤ i < Z.of_nat n)%Z → norm_index n i = Some (Z.to_nat i).
Proof. intros Hi. unfold norm_index. by rewrite bool_decide_eq_true_2. Qed.

Lemma norm_index_above (n : nat) (i : Z) :
  (0 ≤ i)%Z → (Z.of_nat n ≤ i)%Z → norm_index n i = None.
Proof.
  intros H0 Hn. unfold norm_index.
  rewrite !bool_decide_eq_false_2 by lia. done.
Qed.

Section grids.
Context {F : Type} `{Scalar F}.

Lemma item_arange (n : Z) (i : nat) :
  i < Z.to_nat n → item (arange n) [i] = Z.of_nat i.
Proof. intros Hi. unfold arange. rewrite item_tabulate by solve_bounds. done. Qed.

Lemma shape_x_range isz W Hh (s : F) :
  shape (x_range (__init__ isz (W, Hh) s)) = [Z.to_nat Hh; Z.to_nat W].
Proof. simpl. by rewrite !Nat.mul_1_r. Qed.

Lemma shape_y_range isz W Hh (s : F) :
  shape (y_range (__init__ isz (W, Hh) s)) = [Z.to_nat Hh; Z.to_nat W].
Proof. simpl. by rewrite !Nat.mul_1_r. Qed.

(** [x_range[row, col] = col] and [y_range[row, col] = row]. *)
Lemma item_x_range isz W Hh (s : F) (row col : nat) :
  row < Z.to_nat Hh → col < Z.to_nat W →
  item (x_range (__init__ isz (W, Hh) s)) [row; col] = Z.of_nat col.
Proof.
  intros Hr Hc. simpl. rewrite !Nat.mul_1_r.
  rewrite item_tabulate by solve_bounds. by apply item_arange.
Qed.

Lemma item_y_range isz W Hh (s : F) (row col : nat) :
  row < Z.to_nat Hh → col < Z.to_nat W →
  item (y_range (__init__ isz (W, Hh) s)) [row; col] = Z.of_nat row.
Proof.
  intros Hr Hc. simpl. rewrite !Nat.mul_1_r.
  rewrite item_tabulate by solve_bounds. by apply item_arange.
Qed.
End grids.

Section numpy_facts.
Context {A : Type} `{Inhabited A}.

Lemma subarray_ok (a : ndarray A) n s i i' :
  shape a = n :: s → norm_index n i = Some i' →
  subarray a i = Ok (tabulate s (λ idx, item a (i' :: idx))).
Proof. intros Hs Hi. unfold subarray. by rewrite Hs, Hi. Qed.

Lemma select_axis1_ok (a : ndarray A) n d s j j' :
  shape a = n :: d :: s → norm_index d j = Some j' →
  select_axis1 a j =
    Ok (tabulate (n :: s)
          (λ idx, match idx with
                  | i :: r => item a (i :: j' :: r)
                  | [] => inhabitant
                  end)).
Proof. intros Hs Hj. unfold select_axis1. by rewrite Hs, Hj. Qed.

Lemma concatenate_last_ok (a b : ndarray A) pre la lb :
  shape a = pre ++ [la] → shape b = pre ++ [lb] →
  concatenate_last a b =
    Ok (tabulate (pre ++ [la + lb])
          (λ idx, let j := idx !!! length pre in
                  if decide (j < la) then item a (take (length pre) idx ++ [j])
                  else item b (take (length pre) idx ++ [j - la]))).
Proof.
  intros Ha Hb. unfold concatenate_last.
  rewrite Ha, Hb, !reverse_snoc. rewrite decide_True by done.
  by rewrite reverse_involutive, length_reverse.
Qed.

Lemma transpose_201_ok (a : ndarray A) n0 n1 n2 :
  shape a = [n0; n1; n2] →
  transpose a [2; 0; 1] =
    Ok (tabulate [n2; n0; n1]
          (λ idx, item a [idx !!! 1; idx !!! 2; idx !!! 0])).
Proof. intros Ha. unfold transpose, ndim. rewrite Ha. done. Qed.

Lemma item_newaxis (a : ndarray A) idx : item (newaxis a) (0 :: idx) = item a idx.
Proof. done. Qed.

Lemma item_expand_dims_last (a : ndarray A) idx :
  length idx = ndim a → item (expand_dims_last a) (idx ++ [0]) = item a idx.
Proof.
  unfold item, expand_dims_last, ndim. simpl. intros Hlen. f_equal. f_equal.
  revert idx Hlen. induction (shape a) as [|n s IH]; intros [|i idx] Hlen;
    simplify_eq/=; [done|].
  rewrite IH by done. f_equal. f_equal.
  clear. induction s as [|m s IH]; simpl; [done|]. by rewrite IH.
Qed.
End numpy_facts.

Lemma broadcast2_ok {A B C} `{Inhabited A, Inhabited B}
    (f : A → B → C) (a : ndarray A) (b : ndarray B) sh :
  broadcast_shapes (shape a) (shape b) = Some sh →
  broadcast2 f a b =
    Ok (tabulate sh (λ idx, f (item a (bindex (shape a) idx))
                             (item b (bindex (shape b) idx)))).
Proof. intros Hsh. unfold broadcast2. by rewrite Hsh. Qed.

Section offsets.
Context {F : Type} `{Scalar F}.
Local Arguments item : simpl never.
Local Arguments tabulate : simpl never.

Lemma broadcast_vec_grid (K Hn Wn : nat) :
  broadcast_shapes [K] [Hn; Wn; 1] = Some [Hn; Wn; K].
Proof.
  unfold broadcast_shapes. cbn.
  destruct (decide (K = 1)) as [->|]; [done|]. cbn. done.
Qed.

Lemma generate_offside_heatmap_spec isz W Hh (sg : F) hsz (kps : ndarray F) N K D st :
  self st = __init__ isz (W, Hh) sg →
  shape kps = [S N; K; D] → 2 ≤ D →
  ∃ d, generate_offside_heatmap hsz kps st = (Ok d, st) ∧
       shape d = [K + K; Z.to_nat Hh; Z.to_nat W] ∧
       ∀ k row col, k < K → row < Z.to_nat Hh → col < Z.to_nat W →
         item d [k; row; col] = fsub (item kps [0; k; 0]) (of_int (Z.of_nat col)) ∧
         item d [K + k; row; col] = fsub (item kps [0; k; 1]) (of_int (Z.of_nat row)).
Proof.
  intros Hself Hshape HD.
  assert (Hxs : shape (x_range (self st)) = [Z.to_nat Hh; Z.to_nat W])
    by (rewrite Hself; apply shape_x_range).
  assert (Hys : shape (y_range (self st)) = [Z.to_nat Hh; Z.to_nat W])
    by (rewrite Hself; apply shape_y_range).
  assert (Hxi : ∀ row col, row < Z.to_nat Hh → col < Z.to_nat W →
                  item (x_range (self st)) [row; col] = Z.of_nat col)
    by (rewrite Hself; apply item_x_range).
  assert (Hyi : ∀ row col, row < Z.to_nat Hh → col < Z.to_nat W →
                  item (y_range (self st)) [row; col] = Z.of_nat row)
    by (rewrite Hself; apply item_y_range).
  clear Hself.
  unfold generate_offside_heatmap, get_self, lift, mbind at 1, M_bind, bind.
  unfold unpack_shape3. rewrite Hshape. rstep. destruct hsz as [? ?].
  erewrite subarray_ok by (try done; apply (norm_index_nat _ 0); lia). rstep.
  rewrite (select_axis1_ok _ K D [] 0%Z 0) by (try done; apply (norm_index_nat _ 0); lia). rstep.
  unfold np_subtract_int.
  rewrite (broadcast2_ok _ _ _ [Z.to_nat Hh; Z.to_nat W; K])
    by (cbn; rewrite Hxs; apply broadcast_vec_grid).
  rstep.
  rewrite (select_axis1_ok _ K D [] 1%Z 1) by (try done; apply (norm_index_nat _ 1); lia). rstep.
  rewrite (broadcast2_ok _ _ _ [Z.to_nat Hh; Z.to_nat W; K])
    by (cbn; rewrite Hys; apply broadcast_vec_grid).
  rstep.
  erewrite (concatenate_last_ok _ _ [Z.to_nat Hh; Z.to_nat W] K K) by done. rstep.
  erewrite transpose_201_ok by done.
  eexists. split; [done|]. split; [done|].
  intros k row col Hk Hrow Hcol.
  assert (Hb : ∀ d i, i < d → (if decide (d = 1) then 0 else i) = i).
  { intros d i Hi. destruct (decide (d = 1)); lia. }
  split.
  - rewrite item_tabulate by solve_bounds. simpl.
    rewrite item_tabulate by solve_bounds. simpl.
    rewrite decide_True by lia.
    rewrite item_tabulate by solve_bounds.
    rewrite Hxs. unfold bindex. simpl.
    rewrite !Hb by lia.
    rewrite item_tabulate by solve_bounds.
    rewrite item_tabulate by solve_bounds.
    rewrite (item_expand_dims_last _ [row; col]) by (unfold ndim; by rewrite Hxs).
    rewrite Hxi by done. done.
  - rewrite item_tabulate by solve_bounds. simpl.
    rewrite item_tabulate by solve_bounds. simpl.
    rewrite decide_False by lia.
    rewrite item_tabulate by solve_bounds.
    rewrite Hys. unfold bindex. simpl.
    rewrite !Hb by lia.
    replace (K + k - K) with k by lia.
    rewrite item_tabulate by solve_bounds.
    rewrite item_tabulate by solve_bounds.
    rewrite (item_expand_dims_last _ [row; col]) by (unfold ndim; by rewrite Hys).
    rewrite Hyi by done. done.
Qed.
End offsets.

Section getitem_facts.
Context {A : Type} `{Inhabited A}.

Lemma norm_indices_nat sh idx :
  in_bounds idx sh → norm_indices sh (Z.of_nat <$> idx) = Some idx.
Proof.
  intros Hb. induction Hb as [|i n js s Hi _ IH]; [done|].
  rewrite fmap_cons. cbn [norm_indices]. by rewrite norm_index_nat, IH.
Qed.

Lemma getitem_in_bounds (a : ndarray A) idx :
  in_bounds idx (shape a) → getitem a (Z.of_nat <$> idx) = Ok (item a idx).
Proof.
  intros Hb. unfold getitem, ndim.
  rewrite length_fmap, (Forall2_length Hb), take_ge by done.
  rewrite norm_indices_nat by done.
  by rewrite bool_decide_eq_false_2 by lia.
Qed.
End getitem_facts.

Section encode_facts.
Context {F : Type} `{Scalar F}.
Variable gen : Z * Z → ndarray F → ndarray F → F → result (ndarray F * ndarray F).
Local Arguments item : simpl never.
Local Arguments tabulate : simpl never.

Lemma generate_offside_heatmap_state hsz (kps : ndarray F) st :
  (generate_offside_heatmap hsz kps st).2 = st.
Proof. done. Qed.

(** What a successful call of [encode] has computed. *)
Lemma encode_Ok_inv kp vis st enc st' :
  encode gen kp vis st = (Ok enc, st') →
  st' = st ∧ assert_single_instance kp = Ok () ∧
  ∃ scaled hm w w0 d,
    np_true_divide kp (scale_factor (self st)) = Ok scaled ∧
    gen (heatmap_size (self st)) scaled (visible_or_ones kp vis) (sigma (self st))
      = Ok (hm, w) ∧
    generate_offside_heatmap (heatmap_size (self st)) scaled st = (Ok d, st) ∧
    subarray w 0 = Ok w0 ∧
    enc = Encoded hm w0 d.
Proof.
  unfold encode, get_self, lift, mbind, M_bind, bind, mret, M_ret, ret.
  fold (visible_or_ones kp vis).
  destruct (assert_single_instance kp) as [[]|]; [|done].
  destruct (np_true_divide kp (scale_factor (self st))) as [scaled|]; [|done].
  destruct (gen _ scaled _ _) as [[hm w]|] eqn:Hgen; [|done].
  pose proof (generate_offside_heatmap_state (heatmap_size (self st)) scaled st) as Hst.
  destruct (generate_offside_heatmap _ scaled st) as [[d|] st1] eqn:Hd;
    simpl in Hst; subst st1; [|done].
  destruct (subarray w 0) as [w0|] eqn:Hw0; [|done].
  intros [= <- <-]. split; [done|]. split; [done|].
  by exists scaled, hm, w, w0, d.
Qed.

Lemma encode_Ok_intro kp vis st scaled hm w w0 d :
  assert_single_instance kp = Ok () →
  np_true_divide kp (scale_factor (self st)) = Ok scaled →
  gen (heatmap_size (self st)) scaled (visible_or_ones kp vis) (sigma (self st))
    = Ok (hm, w) →
  generate_offside_heatmap (heatmap_size (self st)) scaled st = (Ok d, st) →
  subarray w 0 = Ok w0 →
  encode gen kp vis st = (Ok (Encoded hm w0 d), st).
Proof.
  intros Ha Hs Hg Hd Hw.
  unfold encode, get_self, lift, mbind, M_bind, bind, mret, M_ret, ret.
  fold (visible_or_ones kp vis).
  by rewrite Ha, Hs, Hg, Hd, Hw.
Qed.

(** [keypoints / self.scale_factor] for keypoints of shape (1, K, 2). *)
Lemma scaled_keypoints_spec (w h W Hh : Z) (sg : F) (kp : ndarray F) K :
  shape kp = [1; K; 2] →
  ∃ scaled,
    np_true_divide kp (scale_factor (__init__ (w, h) (W, Hh) sg)) = Ok scaled ∧
    shape scaled = [1; K; 2] ∧
    ∀ k, k < K →
      item scaled [0; k; 0] = fdiv (item kp [0; k; 0]) (fdiv (of_int w) (of_int W)) ∧
      item scaled [0; k; 1] = fdiv (item kp [0; k; 1]) (fdiv (of_int h) (of_int Hh)).
Proof.
  intros Hshape. unfold np_true_divide.
  rewrite (broadcast2_ok _ _ _ [1; K; 2]) by (by rewrite Hshape).
  eexists. split; [done|]. split; [done|].
  intros k Hk.
  assert (Hb : ∀ d i, i < d → (if decide (d = 1) then 0 else i) = i).
  { intros d i Hi. destruct (decide (d = 1)); lia. }
  split; rewrite item_tabulate by solve_bounds; rewrite Hshape; unfold bindex; simpl;
    rewrite !Hb by lia; done.
Qed.
End encode_facts.

(** ** C1: the offset field is exact *)

Section offset_field.
Context {F : Type} `{Scalar F}.
Variable gen : Z * Z → ndarray F → ndarray F → F → result (ndarray F * ndarray F).

Lemma broadcast_with_pair (s sh : list nat) :
  broadcast_shapes s [2] = Some sh →
  (s = [] ∧ sh = [2]) ∨
  ∃ pre a, s = pre ++ [a] ∧ (a = 1 ∨ a = 2) ∧ sh = pre ++ [2].
Proof.
  unfold broadcast_shapes. destruct s as [|a pre _] using rev_ind.
  - intros [= <-]. by left.
  - rewrite reverse_snoc. simpl.
    assert (Hrest : broadcast_rev (reverse pre) [] = Some (reverse pre))
      by (by destruct (reverse pre)).
    rewrite Hrest. intros Hsh. right. exists pre, a.
    destruct (decide (a = 2)) as [->|]; [|destruct (decide (a = 1)) as [->|]];
      simpl in Hsh; [| |by repeat case_decide].
    + injection Hsh as <-. by rewrite reverse_cons, reverse_involutive; auto.
    + injection Hsh as <-. by rewrite reverse_cons, reverse_involutive; auto.
Qed.

Lemma generate_offside_heatmap_rank hsz (kps : ndarray F) (st st' : state F) d :
  generate_offside_heatmap hsz kps st = (Ok d, st') →
  ∃ N K D, shape kps = [N; K; D].
Proof.
  unfold generate_offside_heatmap, get_self, lift, mbind at 1, M_bind, bind. simpl.
  unfold unpack_shape3.
  destruct (shape kps) as [|N [|K [|D [|]]]]; try done. by exists N, K, D.
Qed.

(** C1. Whenever [encode] returns, the scaled keypoints
    [keypoints / self.scale_factor] have shape (1, K, 2) and the displacement
    field has shape (2K, H, W); for every keypoint k with scaled coordinate
    (kx, ky) and every cell (row, col), channel k holds kx - col and channel
    K + k holds ky - row.  For keypoints of shape (1, K, 2) the scaled
    coordinate is the keypoint divided, coordinate by coordinate, by
    input_size / heatmap_size. *)
Theorem encode_offset_field_exact (w h W Hh : Z) (sg : F) st kp vis enc st' :
  self st = __init__ (w, h) (W, Hh) sg →
  encode gen kp vis st = (Ok enc, st') →
  ∃ K scaled,
    np_true_divide kp (scale_factor (self st)) = Ok scaled ∧
    shape scaled = [1; K; 2] ∧
    shape (displacements enc) = [2 * K; Z.to_nat Hh; Z.to_nat W] ∧
    (∀ k row col : nat, k < K → row < Z.to_nat Hh → col < Z.to_nat W →
       let kx := item scaled [0; k; 0] in
       let ky := item scaled [0; k; 1] in
       getitem (displacements enc) [Z.of_nat k; Z.of_nat row; Z.of_nat col]
         = Ok (fsub kx (of_int (Z.of_nat col))) ∧
       getitem (displacements enc) [Z.of_nat (K + k); Z.of_nat row; Z.of_nat col]
         = Ok (fsub ky (of_int (Z.of_nat row)))) ∧
    (shape kp = [1; K; 2] →
     ∀ k, k < K →
       item scaled [0; k; 0] = fdiv (item kp [0; k; 0]) (fdiv (of_int w) (of_int W)) ∧
       item scaled [0; k; 1] = fdiv (item kp [0; k; 1]) (fdiv (of_int h) (of_int Hh))).
Proof.
  intros Hself Henc.
  apply encode_Ok_inv in Henc
    as (-> & Hassert & scaled & hm & wt & w0 & d & Hscaled & _ & Hd & _ & ->).
  destruct (generate_offside_heatmap_rank _ _ _ _ _ Hd) as (N & K & D & Hsh).
  assert (HN : N = 1 ∧ D = 2).
  { pose proof Hscaled as Hdiv. unfold np_true_divide, broadcast2 in Hdiv.
    destruct (broadcast_shapes _ _) as [sh|] eqn:Hbc; [|done].
    injection Hdiv as <-. simpl in Hsh. subst sh.
    rewrite Hself in Hbc. simpl in Hbc.
    apply broadcast_with_pair in Hbc as [[_ [=]]|(pre & a & Hkp & _ & Hpre)].
    destruct pre as [|n0 [|n1 [|n2 pre]]]; simplify_eq/=; [|by destruct pre].
    unfold assert_single_instance in Hassert. rewrite Hkp in Hassert.
    split; [by case_decide|done]. }
  destruct HN as [-> ->].
  destruct (generate_offside_heatmap_spec (w, h) W Hh sg
              (heatmap_size (self st)) scaled 0 K 2 st Hself Hsh)
    as (d' & Hd' & Hdsh & Hditems); [lia|].
  rewrite Hd' in Hd. simplify_eq. simpl.
  exists K, scaled. split; [done|]. split; [done|].
  split; [rewrite Hdsh; f_equal; lia|]. split.
  - intros k row col Hk Hrow Hcol.
    destruct (Hditems k row col Hk Hrow Hcol) as [Hx Hy].
    split.
    + rewrite (getitem_in_bounds d [k; row; col]) by (rewrite Hdsh; solve_bounds).
      by rewrite Hx.
    + rewrite (getitem_in_bounds d [K + k; row; col]) by (rewrite Hdsh; solve_bounds).
      by rewrite Hy.
  - intros Hshape.
    destruct (scaled_keypoints_spec w h W Hh sg kp K Hshape)
      as (scaled' & Hscaled' & _ & Hitems).
    rewrite Hself, Hscaled' in Hscaled. by simplify_eq.
Qed.
End offset_field.

(** ** Running [decode] *)

Section decode_facts.
Context {F : Type} `{Scalar F}.
Variable ghm : ndarray F → result (ndarray F * ndarray F) * ndarray F.
Local Arguments item : simpl never.
Local Arguments tabulate : simpl never.

Lemma np_copy_id {A} (a : ndarray A) : np_copy a = a.
Proof. by destruct a. Qed.

Lemma run_bind {A B} (m : M F A) (k : A → M F B) st :
  (m ≫= k) st = match m st with
                | (Ok a, st') => k a st'
                | (Raise e, st') => (Raise e, st')
                end.
Proof. done. Qed.

Lemma read_run r (st : state F) a : heap st !! r = Some a → read r st = (Ok a, st).
Proof. intros Hr. unfold read. by rewrite Hr. Qed.

(** [a.copy()]: a new object with the same contents. *)
Lemma copy_run r (st : state F) a :
  heap st !! r = Some a →
  (a ← read r; alloc (np_copy a)) st
    = (Ok (length (heap st)), State (self st) (heap st ++ [a])).
Proof.
  intros Hr. rewrite run_bind, (read_run r st a Hr). by rewrite np_copy_id.
Qed.

(** The peak finder answers for the contents of its argument and may
    overwrite them. *)
Lemma call_get_heatmap_maximum_run r (st : state F) a res a' :
  heap st !! r = Some a → ghm a = (res, a') →
  call_get_heatmap_maximum ghm r st = (res, State (self st) (<[r := a']> (heap st))).
Proof.
  intros Hr Hres. unfold call_get_heatmap_maximum.
  rewrite run_bind, (read_run r st a Hr), Hres. rewrite run_bind. done.
Qed.

Lemma decode_run encoded offside (st : state F) hm off K Hn Wn res hm' :
  heap st !! encoded = Some hm →
  heap st !! offside = Some off →
  shape hm = [K; Hn; Wn] →
  ghm hm = (res, hm') →
  decode ghm encoded offside st =
    (decode_values (scale_factor (self st)) K off res,
     State (self st) (heap st ++ [hm'; off])).
Proof.
  intros He Ho Hshape Hres.
  unfold decode.
  rewrite run_bind. unfold get_self at 1. cbv beta iota.
  rewrite run_bind, (copy_run encoded st hm He). cbv beta iota.
  rewrite run_bind, (copy_run offside _ off)
    by (simpl; rewrite lookup_app_l; [done|by eapply lookup_lt_Some]).
  cbv beta iota. simpl heap. simpl self.
  set (st1 := State (self st) ((heap st ++ [hm]) ++ [off])).
  assert (Hh1 : heap st1 !! length (heap st) = Some hm).
  { simpl. rewrite lookup_app_l by (rewrite length_app; simpl; lia).
    by rewrite lookup_app_r, Nat.sub_diag by lia. }
  rewrite run_bind, (read_run _ _ hm Hh1). cbv beta iota.
  rewrite run_bind. unfold lift at 1, unpack_shape3. rewrite Hshape. cbv beta iota.
  rewrite run_bind, (call_get_heatmap_maximum_run _ _ hm res hm' Hh1 Hres).
  assert (Hh2 : <[length (heap st) := hm']> (heap st1) = heap st ++ [hm'; off]).
  { simpl. rewrite <- (assoc_L (++)). simpl.
    rewrite insert_app_r_alt by lia. by rewrite Nat.sub_diag. }
  rewrite Hh2. clear Hh1 Hh2. simpl self. clear st1.
  unfold decode_values.
  destruct res as [[keypoints scores]|e]; [|done].
  cbv beta iota. rstep.
  rewrite run_bind, (read_run _ _ off); cycle 1.
  { simpl. rewrite length_app. simpl.
    rewrite lookup_app_r by lia.
    by replace (length (heap st) + 1 - length (heap st)) with 1 by lia. }
  cbv beta iota.
  rewrite run_bind. unfold lift at 1.
  destruct (slice_to K off) as [offside_x|]; [|done]. cbv beta iota. rstep.
  rewrite run_bind. unfold lift at 1.
  destruct (slice_from K off) as [offside_y|]; [|done]. cbv beta iota. rstep.
  rewrite run_bind. unfold lift at 1.
  destruct (for_range _ _ _) as [kd|]; [|done]. cbv beta iota. rstep.
  rewrite run_bind. unfold lift at 1.
  destruct (np_multiply _ _) as [kd'|]; [|done]. done.
Qed.

(** *** One iteration of the loop *)

Lemma clamped_peak_nonneg keypoints i :
  (0 ≤ (clamped_peak keypoints i).1 ∧ 0 ≤ (clamped_peak keypoints i).2)%Z.
Proof. unfold clamped_peak. case_bool_decide; simpl; lia. Qed.

Lemma unpack_row2_astype keypoints K i :
  shape keypoints = [K; 2] → i < K →
  unpack_row2 (astype_int32 keypoints) i
    = Ok (to_int32 (item keypoints [i; 0]), to_int32 (item keypoints [i; 1])).
Proof.
  intros Hs Hi. unfold unpack_row2.
  rewrite (subarray_ok _ K [2] _ i) by (by rewrite ?norm_index_nat; unfold astype_int32; rewrite ?Hs).
  rstep. change (tabulate [2] ?f) with (NDArray [2] [f [0]; f [1]]).
  cbn [shape data]. unfold astype_int32. rewrite !item_tabulate by (rewrite Hs; solve_bounds). done.
Qed.

Lemma getitem3_nonneg (a : ndarray F) n0 n1 n2 (i : nat) (y x : Z) :
  shape a = [n0; n1; n2] → (0 ≤ y)%Z → (0 ≤ x)%Z →
  getitem a [Z.of_nat i; y; x] =
    if bool_decide (i < n0 ∧ (y < Z.of_nat n1)%Z ∧ (x < Z.of_nat n2)%Z)
    then Ok (item a [i; Z.to_nat y; Z.to_nat x])
    else Raise IndexError.
Proof.
  intros Hs Hy Hx. unfold getitem, ndim. rewrite Hs. simpl.
  case_bool_decide as Hc.
  - destruct Hc as (Hi & Hy' & Hx').
    by rewrite norm_index_nat, !norm_index_in_range by lia.
  - destruct (decide (i < n0)); [|by rewrite norm_index_above by lia].
    rewrite norm_index_nat by done.
    destruct (decide (y < Z.of_nat n1)%Z); [|by rewrite norm_index_above by lia].
    rewrite (norm_index_in_range n1 y) by lia.
    rewrite (norm_index_above n2 x) by lia. done.
Qed.

Lemma setitem2_ok (kd : ndarray F) K (i j : nat) v :
  shape kd = [K; 2] → i < K → j < 2 →
  setitem2 kd (Z.of_nat i) (Z.of_nat j) v =
    Ok (tabulate [K; 2] (λ idx, if decide (take 2 idx = [i; j]) then v else item kd idx)).
Proof.
  intros Hs Hi Hj. unfold setitem2. rewrite Hs.
  by rewrite !norm_index_nat by done.
Qed.

Section iteration.
Variables (C K Hn Wn : nat) (off keypoints : ndarray F).
Hypothesis Hoff : shape off = [C; Hn; Wn].
Hypothesis Hkp : shape keypoints = [K; 2].

Let offside_x : ndarray F := tabulate [min K C; Hn; Wn] (item off).
Let offside_y : ndarray F :=
  tabulate [C - K; Hn; Wn]
    (λ idx, match idx with
            | i :: r => item off (K + i :: r)
            | [] => inhabitant
            end).
Let body := decode_keypoint offside_x offside_y (astype_int32 keypoints).

Lemma slices_of_field :
  slice_to K off = Ok offside_x ∧ slice_from K off = Ok offside_y.
Proof using Hoff. unfold slice_to, slice_from. by rewrite Hoff. Qed.

Lemma decode_keypoint_ok i kd :
  i < K → shape kd = [K; 2] → decodable C K Hn Wn keypoints i →
  ∃ kd', body i kd = Ok kd' ∧ shape kd' = [K; 2] ∧
    item kd' [i; 0] =
      fadd (of_int (clamped_peak keypoints i).1)
           (item off [i; Z.to_nat (clamped_peak keypoints i).2;
                         Z.to_nat (clamped_peak keypoints i).1]) ∧
    item kd' [i; 1] =
      fadd (of_int (clamped_peak keypoints i).2)
           (item off [K + i; Z.to_nat (clamped_peak keypoints i).2;
                             Z.to_nat (clamped_peak keypoints i).1]) ∧
    ∀ i' j, i' ≠ i → i' < K → j < 2 → item kd' [i'; j] = item kd [i'; j].
Proof using Hoff Hkp.
  intros Hi Hkd (HC & Hx & Hy).
  pose proof (clamped_peak_nonneg keypoints i) as [Hx0 Hy0].
  unfold body, decode_keypoint.
  rewrite (unpack_row2_astype keypoints K i Hkp Hi). rstep.
  fold (clamped_peak keypoints i).
  destruct (clamped_peak keypoints i) as [x y] eqn:Hp. simpl in *.
  rewrite (getitem3_nonneg offside_x (min K C) Hn Wn) by done.
  rewrite bool_decide_eq_true_2 by (split; [lia|done]). rstep.
  rewrite (setitem2_ok kd K i 0) by (done || lia). rstep.
  rewrite (getitem3_nonneg offside_y (C - K) Hn Wn) by done.
  rewrite bool_decide_eq_true_2 by (split; [lia|done]). rstep.
  rewrite (setitem2_ok _ K i 1) by (done || lia).
  eexists. split; [done|]. split; [done|].
  unfold offside_x, offside_y.
  split; [|split].
  - rewrite !item_tabulate by solve_bounds. simpl.
    rewrite decide_False by congruence. by rewrite decide_True.
  - rewrite !item_tabulate by solve_bounds. simpl.
    by rewrite decide_True.
  - intros i' j Hne Hi' Hj.
    rewrite !item_tabulate by solve_bounds. simpl.
    rewrite !decide_False by congruence. done.
Qed.

Lemma decode_keypoint_fail i kd :
  i < K → shape kd = [K; 2] → ¬ decodable C K Hn Wn keypoints i →
  body i kd = Raise IndexError.
Proof using Hoff Hkp.
  intros Hi Hkd Hnot.
  pose proof (clamped_peak_nonneg keypoints i) as [Hx0 Hy0].
  unfold decodable in Hnot.
  unfold body, decode_keypoint.
  rewrite (unpack_row2_astype keypoints K i Hkp Hi). rstep.
  fold (clamped_peak keypoints i).
  destruct (clamped_peak keypoints i) as [x y] eqn:Hp. simpl in *.
  rewrite (getitem3_nonneg offside_x (min K C) Hn Wn) by done.
  case_bool_decide as Hc; [|done]. rstep.
  rewrite (setitem2_ok kd K i 0) by (done || lia). rstep.
  rewrite (getitem3_nonneg offside_y (C - K) Hn Wn) by done.
  rewrite bool_decide_eq_false_2; [done|]. intros (? & ? & ?).
  apply Hnot. split; [lia|done].
Qed.

(** *** The loop *)

Lemma decode_loop_ok l kd :
  NoDup l → (∀ i, i ∈ l → i < K ∧ decodable C K Hn Wn keypoints i) →
  shape kd = [K; 2] →
  ∃ kd', for_each l body kd = Ok kd' ∧ shape kd' = [K; 2] ∧
    (∀ i, i ∈ l → item kd' [i; 0] = (corrected K off keypoints i).1 ∧ item kd' [i; 1] = (corrected K off keypoints i).2) ∧
    (∀ i j, i ∉ l → i < K → j < 2 → item kd' [i; j] = item kd [i; j]).
Proof using Hoff Hkp.
  intros Hnd. revert kd. induction Hnd as [|a l Ha Hnd IH]; intros kd Hl Hkd.
  - exists kd. split; [done|]. split; [done|]. split; [|done].
    intros i Hi. by apply elem_of_nil in Hi.
  - destruct (Hl a) as [HaK Hdec]; [by left|].
    destruct (decode_keypoint_ok a kd HaK Hkd Hdec)
      as (kd1 & Hrun & Hkd1 & Hx & Hy & Hother).
    destruct (IH kd1) as (kd' & Hrun' & Hkd' & Hin & Hout); [|done|].
    { intros i Hi. apply Hl. by right. }
    exists kd'. simpl. rewrite Hrun. simpl. split; [done|]. split; [done|]. split.
    + intros i [->|Hi]%elem_of_cons; [|by apply Hin].
      rewrite !Hout by (done || lia). done.
    + intros i j [Hne Hi]%not_elem_of_cons Hik Hj.
      rewrite Hout by done. by apply Hother.
Qed.

Lemma decode_loop_fail l kd :
  (∀ i, i ∈ l → i < K) →
  (∃ i, i ∈ l ∧ ¬ decodable C K Hn Wn keypoints i) →
  shape kd = [K; 2] →
  for_each l body kd = Raise IndexError.
Proof using Hoff Hkp.
  revert kd. induction l as [|a l IH]; intros kd Hl (i & Hi & Hnot) Hkd.
  - by apply elem_of_nil in Hi.
  - simpl. assert (HaK : a < K) by (apply Hl; by left).
    destruct (decide (decodable C K Hn Wn keypoints a)) as [Hdec|Hdec].
    + destruct (decode_keypoint_ok a kd HaK Hkd Hdec) as (kd1 & Hrun & Hkd1 & _).
      rewrite Hrun. simpl. apply IH; [| |done].
      * intros i' Hi'. apply Hl. by right.
      * apply elem_of_cons in Hi as [->|Hi]; [done|]. by exists i.
    + by rewrite (decode_keypoint_fail a kd HaK Hkd Hdec).
Qed.

(** *** The whole computation *)

Lemma decode_values_ok (scale scores : ndarray F) :
  shape scale = [2] →
  (∀ i, i < K → decodable C K Hn Wn keypoints i) →
  ∃ kps, decode_values scale K off (Ok (keypoints, scores)) = Ok (kps, newaxis scores) ∧
    shape kps = [1; K; 2] ∧
    ∀ k, k < K →
      item kps [0; k; 0] = fmul (corrected K off keypoints k).1 (item scale [0]) ∧
      item kps [0; k; 1] = fmul (corrected K off keypoints k).2 (item scale [1]).
Proof using Hoff Hkp.
  intros Hscale Hall. unfold decode_values. rstep.
  destruct slices_of_field as [-> ->]. rstep.
  destruct (decode_loop_ok (seq 0 K) (np_full (shape keypoints) fzero))
    as (kd & Hrun & Hkd & Hin & _).
  { apply NoDup_seq. }
  { intros i Hi%elem_of_seq. split; [lia|]. apply Hall. lia. }
  { by rewrite Hkp. }
  unfold for_range. fold offside_x offside_y body. rewrite Hrun. rstep.
  unfold np_multiply.
  rewrite (broadcast2_ok _ _ _ [K; 2]) by (by rewrite Hkd, Hscale). rstep.
  eexists. split; [done|]. split; [done|].
  intros k Hk. rewrite !item_newaxis.
  assert (Hb : ∀ d i, i < d → (if decide (d = 1) then 0 else i) = i).
  { intros d i Hi. destruct (decide (d = 1)); lia. }
  destruct (Hin k) as [Hx Hy]; [apply elem_of_seq; lia|].
  split; rewrite item_tabulate by solve_bounds; rewrite Hkd, Hscale;
    unfold bindex; simpl; rewrite !Hb by lia; by rewrite ?Hx, ?Hy.
Qed.

Lemma decode_values_fail (scale scores : ndarray F) i :
  i < K → ¬ decodable C K Hn Wn keypoints i →
  decode_values scale K off (Ok (keypoints, scores)) = Raise IndexError.
Proof using Hoff Hkp.
  intros Hi Hnot. unfold decode_values. rstep.
  destruct slices_of_field as [-> ->]. rstep.
  unfold for_range. fold offside_x offside_y body.
  rewrite decode_loop_fail; [done| |by exists i; rewrite elem_of_seq; split; [lia|]|by rewrite Hkp].
  intros i' Hi'%elem_of_seq. lia.
Qed.
End iteration.
End decode_facts.

(** ** C3, C2, C10, C6: what [decode] returns *)

Section decode_claims.
Context {F : Type} `{Scalar F}.
Variable ghm : ndarray F → result (ndarray F * ndarray F) * ndarray F.

Lemma clamped_peak_nonneg_eq keypoints k :
  (0 ≤ (peak keypoints k).1)%Z → (0 ≤ (peak keypoints k).2)%Z →
  clamped_peak keypoints k = peak keypoints k.
Proof.
  unfold clamped_peak, peak. simpl. intros Hx Hy.
  by rewrite bool_decide_eq_false_2 by lia.
Qed.

Lemma clamped_peak_negative keypoints k :
  ((peak keypoints k).1 < 0 ∨ (peak keypoints k).2 < 0)%Z →
  clamped_peak keypoints k = (0, 0)%Z.
Proof.
  unfold clamped_peak, peak. simpl. intros Hxy.
  by rewrite bool_decide_eq_true_2.
Qed.

(** C3. When the peak of keypoint k is the non-negative integer location
    (x, y), the decoded coordinate is (x + offside_x[k, y, x]) and
    (y + offside_y[k, y, x]), the offsets being read at the peak cell in
    (channel, row, col) order from the first and the last K channels of the
    displacement field, that is from [offside[k, y, x]] and
    [offside[K + k, y, x]], each multiplied by the corresponding entry of
    the scale factor; the keypoints are returned with shape (1, K, 2) and
    the scores with shape (1, K). *)
Theorem decode_subpixel_correction (st : state F) encoded offside hm off K Hn Wn
    keypoints scores hm' :
  heap st !! encoded = Some hm →
  heap st !! offside = Some off →
  shape hm = [K; Hn; Wn] →
  shape off = [2 * K; Hn; Wn] →
  shape (scale_factor (self st)) = [2] →
  ghm hm = (Ok (keypoints, scores), hm') →
  shape keypoints = [K; 2] →
  shape scores = [K] →
  peaks_in_grid K Hn Wn keypoints →
  ∃ kps offside_x offside_y st',
    decode ghm encoded offside st = (Ok (kps, newaxis scores), st') ∧
    shape kps = [1; K; 2] ∧
    shape (newaxis scores) = [1; K] ∧
    slice_to K off = Ok offside_x ∧
    slice_from K off = Ok offside_y ∧
    ∀ (k : nat) (x y : Z),
      k < K → peak keypoints k = (x, y) → (0 ≤ x)%Z → (0 ≤ y)%Z →
      ∃ ox oy,
        getitem off [Z.of_nat k; y; x] = Ok ox ∧
        getitem off [Z.of_nat (K + k); y; x] = Ok oy ∧
        getitem offside_x [Z.of_nat k; y; x] = Ok ox ∧
        getitem offside_y [Z.of_nat k; y; x] = Ok oy ∧
        getitem kps [0; Z.of_nat k; 0]%Z
          = Ok (fmul (fadd (of_int x) ox) (item (scale_factor (self st)) [0])) ∧
        getitem kps [0; Z.of_nat k; 1]%Z
          = Ok (fmul (fadd (of_int y) oy) (item (scale_factor (self st)) [1])).
Proof.
  intros He Ho Hhm Hoff Hscale Hres Hkp Hsc Hgrid.
  rewrite (decode_run ghm encoded offside st hm off K Hn Wn _ hm' He Ho Hhm Hres).
  destruct (decode_values_ok (2 * K) K Hn Wn off keypoints Hoff Hkp
              (scale_factor (self st)) scores Hscale)
    as (kps & Hrun & Hshape & Hitems).
  { intros i Hi. split; [lia|]. by apply Hgrid. }
  destruct (slices_of_field (2 * K) K Hn Wn off Hoff) as [Hsx Hsy].
  eexists kps, _, _, _. split; [by rewrite Hrun|]. split; [done|].
  split; [by simpl; rewrite Hsc|]. split; [done|]. split; [done|].
  intros k x y Hk Hp Hx Hy.
  destruct (Hgrid k Hk) as [Hxw Hyh].
  rewrite clamped_peak_nonneg_eq in Hxw, Hyh by (by rewrite Hp).
  rewrite Hp in Hxw, Hyh. simpl in Hxw, Hyh.
  destruct (Hitems k Hk) as [Hkx Hky].
  unfold corrected in Hkx, Hky.
  rewrite clamped_peak_nonneg_eq in Hkx, Hky by (by rewrite Hp).
  rewrite Hp in Hkx, Hky. simpl in Hkx, Hky.
  exists (item off [k; Z.to_nat y; Z.to_nat x]), (item off [K + k; Z.to_nat y; Z.to_nat x]).
  rewrite (getitem3_nonneg off (2 * K) Hn Wn k y x) by done.
  rewrite (getitem3_nonneg off (2 * K) Hn Wn (K + k) y x) by done.
  rewrite !(getitem3_nonneg (tabulate _ _) _ Hn Wn k y x) by done.
  rewrite !bool_decide_eq_true_2 by (split; [lia|done]).
  split; [done|]. split; [done|].
  rewrite !item_tabulate by solve_bounds.
  split; [done|]. split; [done|].
  change [0%Z; Z.of_nat k; 0%Z] with (Z.of_nat <$> [0; k; 0]).
  change [0%Z; Z.of_nat k; 1%Z] with (Z.of_nat <$> [0; k; 1]).
  rewrite !getitem_in_bounds by (rewrite Hshape; solve_bounds).
  by rewrite Hkx, Hky.
Qed.

(** C2, as amended.  With heatmaps of shape (K, H, W), a displacement field
    of shape (2K, H, W), a scale factor of two entries and K peak locations
    of two values that lie in the grid after the clamp: when the peak finder
    returns (-1, -1) for channel k, [decode] returns, and no negative index
    is used.  The peak is clamped to the cell (row 0, col 0) and the
    sub-pixel correction is applied there as for any other peak: the decoded
    coordinate is (0 + offside[k, 0, 0], 0 + offside[K + k, 0, 0])
    multiplied entry by entry by the scale factor. *)
Theorem decode_clamped_peak (st : state F) encoded offside hm off K Hn Wn
    keypoints scores hm' (k : nat) :
  heap st !! encoded = Some hm →
  heap st !! offside = Some off →
  shape hm = [K; Hn; Wn] →
  shape off = [2 * K; Hn; Wn] →
  shape (scale_factor (self st)) = [2] →
  ghm hm = (Ok (keypoints, scores), hm') →
  shape keypoints = [K; 2] →
  peaks_in_grid K Hn Wn keypoints →
  k < K → peak keypoints k = (-1, -1)%Z →
  ∃ kps offside_x offside_y st' ox oy,
    decode ghm encoded offside st = (Ok (kps, newaxis scores), st') ∧
    slice_to K off = Ok offside_x ∧
    slice_from K off = Ok offside_y ∧
    getitem off [Z.of_nat k; 0; 0]%Z = Ok ox ∧
    getitem off [Z.of_nat (K + k); 0; 0]%Z = Ok oy ∧
    getitem offside_x [Z.of_nat k; 0; 0]%Z = Ok ox ∧
    getitem offside_y [Z.of_nat k; 0; 0]%Z = Ok oy ∧
    getitem kps [0; Z.of_nat k; 0]%Z
      = Ok (fmul (fadd (of_int 0) ox) (item (scale_factor (self st)) [0])) ∧
    getitem kps [0; Z.of_nat k; 1]%Z
      = Ok (fmul (fadd (of_int 0) oy) (item (scale_factor (self st)) [1])).
Proof.
  intros He Ho Hhm Hoff Hscale Hres Hkp Hgrid Hk Hp.
  rewrite (decode_run ghm encoded offside st hm off K Hn Wn _ hm' He Ho Hhm Hres).
  destruct (decode_values_ok (2 * K) K Hn Wn off keypoints Hoff Hkp
              (scale_factor (self st)) scores Hscale)
    as (kps & Hrun & Hshape & Hitems).
  { intros i Hi. split; [lia|]. by apply Hgrid. }
  destruct (slices_of_field (2 * K) K Hn Wn off Hoff) as [Hsx Hsy].
  assert (Hc : clamped_peak keypoints k = (0, 0)%Z).
  { apply clamped_peak_negative. rewrite Hp. simpl. lia. }
  destruct (Hgrid k Hk) as [Hxw Hyh]. rewrite Hc in Hxw, Hyh. simpl in Hxw, Hyh.
  destruct (Hitems k Hk) as [Hkx Hky].
  unfold corrected in Hkx, Hky. rewrite Hc in Hkx, Hky. simpl in Hkx, Hky.
  eexists kps, _, _, _, (item off [k; 0; 0]), (item off [K + k; 0; 0]).
  split; [by rewrite Hrun|].
  split; [done|]. split; [done|].
  rewrite (getitem3_nonneg off (2 * K) Hn Wn k 0 0) by done.
  rewrite (getitem3_nonneg off (2 * K) Hn Wn (K + k) 0 0) by done.
  rewrite !(getitem3_nonneg (tabulate _ _) _ Hn Wn k 0 0) by done.
  rewrite !bool_decide_eq_true_2 by (split; [lia|done]).
  split; [done|]. split; [done|].
  rewrite !item_tabulate by solve_bounds.
  split; [done|]. split; [done|].
  change [0%Z; Z.of_nat k; 0%Z] with (Z.of_nat <$> [0; k; 0]).
  change [0%Z; Z.of_nat k; 1%Z] with (Z.of_nat <$> [0; k; 1]).
  rewrite !getitem_in_bounds by (rewrite Hshape; solve_bounds).
  by rewrite Hkx, Hky.
Qed.

(** C10, as amended.  The clamp only guards the lower side.  With heatmaps
    of shape (K, H, W), a displacement field of shape (2K, H, W), a scale
    factor of two entries and K peak locations of two values: a peak
    location with both coordinates non-negative and x >= W or y >= H makes
    the displacement lookup raise IndexError, and with it [decode]; a
    location with a negative coordinate is reset to (0, 0) whatever its
    other coordinate, also one beyond the grid; and [decode] returns exactly
    when every location, after that reset, is a cell of the grid. *)
Theorem decode_upper_bound_unchecked (st : state F) encoded offside hm off K Hn Wn
    keypoints scores hm' :
  heap st !! encoded = Some hm →
  heap st !! offside = Some off →
  shape hm = [K; Hn; Wn] →
  shape off = [2 * K; Hn; Wn] →
  shape (scale_factor (self st)) = [2] →
  ghm hm = (Ok (keypoints, scores), hm') →
  shape keypoints = [K; 2] →
  (∀ (k : nat) (x y : Z),
     k < K → peak keypoints k = (x, y) → (0 ≤ x)%Z → (0 ≤ y)%Z →
     (Z.of_nat Wn ≤ x ∨ Z.of_nat Hn ≤ y)%Z →
     ∃ offside_x st',
       slice_to K off = Ok offside_x ∧
       getitem offside_x [Z.of_nat k; y; x] = Raise IndexError ∧
       decode ghm encoded offside st = (Raise IndexError, st')) ∧
  (∀ (k : nat) (x y : Z),
     k < K → peak keypoints k = (x, y) → (x < 0 ∨ y < 0)%Z →
     clamped_peak keypoints k = (0, 0)%Z) ∧
  ((∃ r st', decode ghm encoded offside st = (Ok r, st')) ↔
   peaks_in_grid K Hn Wn keypoints).
Proof.
  intros He Ho Hhm Hoff Hscale Hres Hkp.
  rewrite (decode_run ghm encoded offside st hm off K Hn Wn _ hm' He Ho Hhm Hres).
  destruct (slices_of_field (2 * K) K Hn Wn off Hoff) as [Hsx Hsy].
  split; [|split; [by intros k x y _ Hp Hneg; apply clamped_peak_negative; rewrite Hp|]].
  - intros k x y Hk Hp Hx Hy Hout.
    eexists _, _. split; [done|].
    rewrite (getitem3_nonneg _ _ Hn Wn k y x) by done.
    rewrite bool_decide_eq_false_2 by lia. split; [done|].
    rewrite (decode_values_fail (2 * K) K Hn Wn off keypoints Hoff Hkp _ _ k Hk); [done|].
    unfold decodable. rewrite clamped_peak_nonneg_eq by (by rewrite Hp).
    rewrite Hp. simpl. lia.
  - split.
    + intros (r & st' & Hrun) i Hi.
      destruct (decide (decodable (2 * K) K Hn Wn keypoints i)) as [(_ & ? & ?)|Hnot];
        [done|].
      by rewrite (decode_values_fail (2 * K) K Hn Wn off keypoints Hoff Hkp _ _ i Hi Hnot)
        in Hrun.
    + intros Hgrid.
      destruct (decode_values_ok (2 * K) K Hn Wn off keypoints Hoff Hkp
                  (scale_factor (self st)) scores Hscale)
        as (kps & Hrun & _).
      { intros i Hi. split; [lia|]. by apply Hgrid. }
      rewrite Hrun. by eexists _, _.
Qed.

(** C6, as amended.  [decode] does not compare the channel count C of the
    displacement field with 2K.  With fewer than 2K channels the
    displacement lookup of some keypoint raises IndexError.  With more
    than 2K channels and every peak in the grid, [decode] returns: the
    x-offset of keypoint k is read from channel k, the y-offset from
    channel K + k, and the channels from 2K on are ignored. *)
Theorem decode_channel_count_unchecked (st : state F) encoded offside hm off C K Hn Wn
    keypoints scores hm' :
  heap st !! encoded = Some hm →
  heap st !! offside = Some off →
  shape hm = [K; Hn; Wn] →
  shape off = [C; Hn; Wn] →
  shape (scale_factor (self st)) = [2] →
  ghm hm = (Ok (keypoints, scores), hm') →
  shape keypoints = [K; 2] →
  (C < 2 * K → ∃ st', decode ghm encoded offside st = (Raise IndexError, st')) ∧
  (2 * K < C → peaks_in_grid K Hn Wn keypoints →
   ∃ kps st',
     decode ghm encoded offside st = (Ok (kps, newaxis scores), st') ∧
     ∀ k, k < K →
       let x := (clamped_peak keypoints k).1 in
       let y := (clamped_peak keypoints k).2 in
       item kps [0; k; 0] =
         fmul (fadd (of_int x) (item off [k; Z.to_nat y; Z.to_nat x]))
              (item (scale_factor (self st)) [0]) ∧
       item kps [0; k; 1] =
         fmul (fadd (of_int y) (item off [K + k; Z.to_nat y; Z.to_nat x]))
              (item (scale_factor (self st)) [1])).
Proof.
  intros He Ho Hhm Hoff Hscale Hres Hkp.
  rewrite (decode_run ghm encoded offside st hm off K Hn Wn _ hm' He Ho Hhm Hres).
  split.
  - intros HC. eexists.
    rewrite (decode_values_fail C K Hn Wn off keypoints Hoff Hkp _ _ (C - K)); [done|lia|].
    unfold decodable. lia.
  - intros HC Hgrid.
    destruct (decode_values_ok C K Hn Wn off keypoints Hoff Hkp
                (scale_factor (self st)) scores Hscale)
      as (kps & Hrun & _ & Hitems).
    { intros i Hi. split; [lia|]. by apply Hgrid. }
    rewrite Hrun. eexists _, _. split; [done|]. apply Hitems.
Qed.
End decode_claims.

(** ** C8: no mutation of the configuration or of the caller's arrays *)

Section frame.
Context {F : Type} `{Scalar F}.

Lemma frame_refl n (st : state F) : frame F n st st.
Proof. done. Qed.

Lemma frame_trans n (st1 st2 st3 : state F) : frame F n st1 st2 → frame F n st2 st3 → frame F n st1 st3.
Proof.
  intros (Hs1 & Hl1 & Hh1) (Hs2 & Hl2 & Hh2). split; [congruence|]. split; [lia|].
  intros r Hr. by rewrite Hh2, Hh1.
Qed.

Lemma preserves_bind {A B} n (m : M F A) (k : A → M F B) Q R :
  preserves F n m Q → (∀ a, Q a → preserves F n (k a) R) → preserves F n (m ≫= k) R.
Proof.
  intros Hm Hk st Hn. destruct (Hm st Hn) as [Hf HQ].
  unfold mbind, M_bind, bind. destruct (m st) as [[a|e] st1]; simpl in *; [|done].
  destruct (Hk a (HQ a eq_refl) st1) as [Hf' HR].
  { destruct Hf as (_ & ? & _). lia. }
  split; [by eapply frame_trans|done].
Qed.

Lemma preserves_ret {A} n (a : A) : preserves F n (mret a) (λ _, True).
Proof. done. Qed.

Lemma preserves_lift {A} n (r : result A) : preserves F n (lift r) (λ _, True).
Proof. done. Qed.

Lemma preserves_get_self n : preserves F n get_self (λ _, True).
Proof. done. Qed.

Lemma preserves_read n r : preserves F n (read r) (λ _, True).
Proof. intros st Hn. unfold read. by destruct (heap st !! r). Qed.

(** A new object lies above every object that existed before. *)
Lemma preserves_alloc n a : preserves F n (alloc a) (λ r, n ≤ r).
Proof.
  intros st Hn. unfold alloc. simpl. split.
  - split; [done|]. simpl. split; [rewrite length_app; lia|].
    intros r Hr. by rewrite lookup_app_l by lia.
  - by intros ? [= <-].
Qed.

Lemma preserves_write n r a : n ≤ r → preserves F n (write r a) (λ _, True).
Proof.
  intros Hr st Hn. unfold write. simpl. split; [|done].
  split; [done|]. simpl. split; [by rewrite length_insert|].
  intros r' Hr'. by rewrite list_lookup_insert_ne by lia.
Qed.

Variable gen : Z * Z → ndarray F → ndarray F → F → result (ndarray F * ndarray F).
Variable ghm : ndarray F → result (ndarray F * ndarray F) * ndarray F.

Lemma preserves_call_get_heatmap_maximum n r :
  n ≤ r → preserves F n (call_get_heatmap_maximum ghm r) (λ _, True).
Proof.
  intros Hr. unfold call_get_heatmap_maximum.
  eapply preserves_bind; [apply preserves_read|]. intros a _.
  destruct (ghm a) as [res a'].
  eapply preserves_bind; [by apply preserves_write|]. intros _ _.
  apply preserves_lift.
Qed.

Lemma preserves_decode n encoded offside :
  preserves F n (decode ghm encoded offside) (λ _, True).
Proof.
  unfold decode.
  eapply preserves_bind; [apply preserves_get_self|]. intros self _.
  eapply preserves_bind.
  { eapply preserves_bind; [apply preserves_read|]. intros a _. apply preserves_alloc. }
  intros heatmaps Hheatmaps. simpl in Hheatmaps.
  eapply preserves_bind.
  { eapply preserves_bind; [apply preserves_read|]. intros a _. apply preserves_alloc. }
  intros offside' _.
  eapply preserves_bind; [apply preserves_read|]. intros hm _.
  eapply preserves_bind; [apply preserves_lift|]. intros [[K ?] ?] _.
  eapply preserves_bind; [by apply preserves_call_get_heatmap_maximum|].
  intros [keypoints scores] _.
  eapply preserves_bind; [apply preserves_read|]. intros off _.
  eapply preserves_bind; [apply preserves_lift|]. intros offside_x _.
  eapply preserves_bind; [apply preserves_lift|]. intros offside_y _.
  eapply preserves_bind; [apply preserves_lift|]. intros kd _.
  eapply preserves_bind; [apply preserves_lift|]. intros kd' _.
  apply preserves_ret.
Qed.

Lemma encode_state kp vis (st : state F) : (encode gen kp vis st).2 = st.
Proof.
  unfold encode, get_self, lift, mbind, M_bind, bind, mret, M_ret, ret.
  destruct (assert_single_instance kp) as [[]|]; [|done].
  destruct (np_true_divide kp (scale_factor (self st))) as [scaled|]; [|done].
  destruct (gen _ scaled _ _) as [[hm w]|]; [|done].
  pose proof (generate_offside_heatmap_state (heatmap_size (self st)) scaled st) as Hst.
  destruct (generate_offside_heatmap _ scaled st) as [[d|] st1];
    simpl in Hst; subst st1; [|done].
  by destruct (subarray w 0).
Qed.

(** C8. [encode] leaves the whole state as it was, in particular the
    codec's attributes (scale_factor, x_range, y_range, input_size,
    heatmap_size, sigma).  [decode] leaves the codec's attributes as they
    were and every array object that existed when it was called keeps its
    contents, among them the heatmaps and the displacement field it was
    given, whatever the peak finder writes into the array it is handed:
    that array is a copy made by [decode]. *)
Theorem codec_frame (st : state F) kp vis encoded offside :
  (encode gen kp vis st).2 = st ∧
  self (decode ghm encoded offside st).2 = self st ∧
  ∀ r a, heap st !! r = Some a → heap (decode ghm encoded offside st).2 !! r = Some a.
Proof.
  split; [apply encode_state|].
  destruct (preserves_decode (length (heap st)) encoded offside st)
    as [(Hself & _ & Hheap) _]; [done|].
  split; [done|]. intros r a Hr. rewrite Hheap; [done|]. by eapply lookup_lt_Some.
Qed.
End frame.

(** ** C5, C7, C9: the assertion, the default visibility, and its absence
    from the displacements *)

Section encode_claims.
Context {F : Type} `{Scalar F}.
Variable gen : Z * Z → ndarray F → ndarray F → F → result (ndarray F * ndarray F).

Lemma no_assert_bind {A B} (r : result A) (k : A → result B) :
  no_assert r → (∀ a, no_assert (k a)) → no_assert (r ≫= k).
Proof.
  destruct r as [a|e]; [intros _ Hk; apply Hk|].
  intros Hr _ Heq. apply Hr. simpl in Heq. by simplify_eq.
Qed.

Lemma no_assert_broadcast2 {A B C} `{Inhabited A, Inhabited B}
    (f : A → B → C) a b : no_assert (broadcast2 f a b).
Proof. unfold no_assert, broadcast2. by case_match. Qed.

Lemma no_assert_subarray (a : ndarray F) i : no_assert (subarray a i).
Proof. unfold no_assert, subarray. by repeat case_match. Qed.

Lemma no_assert_select_axis1 (a : ndarray F) j : no_assert (select_axis1 a j).
Proof. unfold no_assert, select_axis1. by repeat case_match. Qed.

Lemma no_assert_concatenate_last (a b : ndarray F) : no_assert (concatenate_last a b).
Proof. unfold no_assert, concatenate_last. by repeat case_match. Qed.

Lemma no_assert_transpose (a : ndarray F) axes : no_assert (transpose a axes).
Proof. unfold no_assert, transpose. by case_match. Qed.

Lemma no_assert_generate_offside_heatmap hsz (kps : ndarray F) (st : state F) :
  no_assert (generate_offside_heatmap hsz kps st).1.
Proof.
  unfold generate_offside_heatmap, get_self, lift, mbind at 1, M_bind, bind. simpl.
  apply no_assert_bind; [unfold no_assert, unpack_shape3; by repeat case_match|].
  intros [[N K] D]. destruct hsz as [W Hh].
  apply no_assert_bind; [apply no_assert_subarray|]. intros kp0.
  apply no_assert_bind; [apply no_assert_select_axis1|]. intros kx.
  apply no_assert_bind; [apply no_assert_broadcast2|]. intros offside_x.
  apply no_assert_bind; [apply no_assert_select_axis1|]. intros ky.
  apply no_assert_bind; [apply no_assert_broadcast2|]. intros offside_y.
  apply no_assert_bind; [apply no_assert_concatenate_last|]. intros offside_map.
  apply no_assert_transpose.
Qed.

(** C5. With a leading dimension N other than 1, [encode] raises
    AssertionError before anything is computed.  With N = 1 the assertion
    passes: an AssertionError can then only come from the heatmap
    generator. *)
Theorem encode_single_instance_assertion (st : state F) kp vis N rest :
  shape kp = N :: rest →
  (N ≠ 1 → encode gen kp vis st = (Raise AssertionError, st)) ∧
  (N = 1 →
     assert_single_instance kp = Ok () ∧
     ((encode gen kp vis st).1 = Raise AssertionError →
      ∃ hsz scaled v sg, gen hsz scaled v sg = Raise AssertionError)).
Proof.
  intros Hshape. split.
  - intros HN. unfold encode, get_self, lift, mbind, M_bind, bind, assert_single_instance.
    rewrite Hshape. by rewrite decide_False.
  - intros ->.
    assert (Ha : assert_single_instance kp = Ok ()).
    { unfold assert_single_instance. by rewrite Hshape. }
    split; [done|].
    unfold encode, get_self, lift, mbind, M_bind, bind, mret, M_ret, ret.
    rewrite Ha.
    pose proof (no_assert_broadcast2 fdiv kp (scale_factor (self st))) as Hdiv.
    fold (@np_true_divide F _) in Hdiv.
    destruct (np_true_divide kp (scale_factor (self st))) as [scaled|e]; [|by intros [= ->]].
    destruct (gen _ _ _ _) as [[hm w]|e] eqn:Hgen; [|simpl; intros [= ->]; eauto].
    pose proof (no_assert_generate_offside_heatmap (heatmap_size (self st)) scaled st) as Hoff.
    destruct (generate_offside_heatmap _ scaled st) as [[d|e] st1]; [|by intros [= ->]].
    pose proof (no_assert_subarray w 0) as Hw.
    destruct (subarray w 0) as [w0|e]; [done|by intros [= ->]].
Qed.

(** C7. Calling [encode] without visibilities is calling it with the
    all-ones array of shape (N, K). *)
Theorem encode_default_visibility (st : state F) kp N K rest :
  shape kp = N :: K :: rest →
  let ones := np_full [N; K] fone in
  shape ones = [N; K] ∧
  (∀ n k, n < N → k < K → item ones [n; k] = fone) ∧
  encode gen kp None st = encode gen kp (Some ones) st.
Proof.
  intros Hshape ones. split; [done|]. split.
  - intros n k Hn Hk. unfold ones, np_full. by rewrite item_tabulate by solve_bounds.
  - unfold encode, ones. by rewrite Hshape.
Qed.

Lemma generate_offside_heatmap_self hsz (kps : ndarray F) (st1 st2 : state F) :
  self st1 = self st2 →
  (generate_offside_heatmap hsz kps st1).1 = (generate_offside_heatmap hsz kps st2).1.
Proof.
  intros Hself.
  unfold generate_offside_heatmap, get_self, lift, mbind at 1, M_bind, bind. simpl.
  unfold mbind at 1, M_bind, bind. simpl.
  unfold mbind at 1, M_bind, bind. simpl. by rewrite Hself.
Qed.

(** C9. Two calls of [encode] on the same keypoints return the same
    displacement field, whatever visibilities they are given. *)
Theorem encode_displacements_ignore_visibility (st1 st2 : state F) kp vis1 vis2
    enc1 enc2 st1' st2' :
  self st1 = self st2 →
  encode gen kp vis1 st1 = (Ok enc1, st1') →
  encode gen kp vis2 st2 = (Ok enc2, st2') →
  displacements enc1 = displacements enc2.
Proof.
  intros Hself H1 H2.
  apply encode_Ok_inv in H1 as (_ & _ & s1 & ? & ? & ? & d1 & Hs1 & _ & Hd1 & _ & ->).
  apply encode_Ok_inv in H2 as (_ & _ & s2 & ? & ? & ? & d2 & Hs2 & _ & Hd2 & _ & ->).
  rewrite Hself, Hs2 in Hs1. injection Hs1 as ->. simpl.
  pose proof (generate_offside_heatmap_self (heatmap_size (self st2)) s1 st1 st2 Hself) as Heq.
  rewrite Hself in Hd1. rewrite Hd1, Hd2 in Heq. simpl in Heq. by simplify_eq.
Qed.
End encode_claims.

(** ** Encode, then decode *)

Section roundtrip.
Context {F : Type} `{Scalar F}.
Variable gen : Z * Z → ndarray F → ndarray F → F → result (ndarray F * ndarray F).
Variable ghm : ndarray F → result (ndarray F * ndarray F) * ndarray F.
Local Arguments item : simpl never.
Local Arguments tabulate : simpl never.

(** [decode] on the heatmaps and the displacements that [encode] returned:
    the offset read at the clamped peak of a keypoint is the one [encode]
    stored for that cell. *)
Lemma encode_then_decode_run (w h W Hh : Z) (sg : F) (st st1 : state F) kp vis K
    enc keypoints scores hm' :
  self st = __init__ (w, h) (W, Hh) sg →
  shape kp = [1; K; 2] →
  encode gen kp vis st = (Ok enc, st1) →
  shape (heatmaps enc) = [K; Z.to_nat Hh; Z.to_nat W] →
  ghm (heatmaps enc) = (Ok (keypoints, scores), hm') →
  shape keypoints = [K; 2] →
  peaks_in_grid K (Z.to_nat Hh) (Z.to_nat W) keypoints →
  ∃ kps st',
    encode_then_decode gen ghm kp vis st = (Ok (kps, newaxis scores), st') ∧
    shape kps = [1; K; 2] ∧
    ∀ k, k < K →
      let x := (clamped_peak keypoints k).1 in
      let y := (clamped_peak keypoints k).2 in
      let sx := fdiv (of_int w) (of_int W) in
      let sy := fdiv (of_int h) (of_int Hh) in
      item kps [0; k; 0]
        = fmul (fadd (of_int x) (fsub (fdiv (item kp [0; k; 0]) sx) (of_int x))) sx ∧
      item kps [0; k; 1]
        = fmul (fadd (of_int y) (fsub (fdiv (item kp [0; k; 1]) sy) (of_int y))) sy.
Proof.
  intros Hself Hshape Henc Hhm Hres Hkp Hgrid.
  destruct (scaled_keypoints_spec w h W Hh sg kp K Hshape)
    as (scaled & Hscaled & Hssh & Hsitems).
  rewrite <- Hself in Hscaled.
  destruct (generate_offside_heatmap_spec (w, h) W Hh sg
              (heatmap_size (self st)) scaled 0 K 2 st Hself Hssh)
    as (d & Hd & Hdsh & Hditems); [lia|].
  pose proof Henc as Hinv.
  apply encode_Ok_inv in Hinv
    as (-> & _ & scaled' & hm & wts & w0 & d' & Hscaled' & _ & Hd' & _ & ->).
  rewrite Hscaled in Hscaled'. injection Hscaled' as <-.
  rewrite Hd in Hd'. injection Hd' as <-.
  simpl in Hhm, Hres.
  unfold encode_then_decode.
  rewrite run_bind, Henc. cbv beta iota.
  rewrite run_bind. unfold alloc at 1. cbv beta iota.
  rewrite run_bind. unfold alloc at 1. cbv beta iota. simpl heap. simpl self.
  simpl heatmaps. simpl displacements.
  set (st2 := State (self st) ((heap st ++ [hm]) ++ [d])).
  assert (He : heap st2 !! length (heap st) = Some hm).
  { simpl. rewrite lookup_app_l by (rewrite length_app; simpl; lia).
    by rewrite lookup_app_r, Nat.sub_diag by lia. }
  assert (Ho : heap st2 !! length (heap st ++ [hm]) = Some d).
  { simpl. by rewrite lookup_app_r, Nat.sub_diag by lia. }
  rewrite (decode_run ghm _ _ st2 hm d K _ _ _ hm' He Ho Hhm Hres).
  assert (Hscale : shape (scale_factor (self st2)) = [2]) by (simpl; by rewrite Hself).
  destruct (decode_values_ok (K + K) K _ _ d keypoints Hdsh Hkp
              (scale_factor (self st2)) scores Hscale)
    as (kps & Hrun & Hkshape & Hitems).
  { intros i Hi. split; [lia|]. by apply Hgrid. }
  rewrite Hrun. eexists kps, _. split; [done|]. split; [done|].
  intros k Hk. cbv zeta.
  destruct (Hgrid k Hk) as [Hxw Hyh].
  pose proof (clamped_peak_nonneg keypoints k) as [Hx0 Hy0].
  destruct (Hitems k Hk) as [Hkx Hky]. unfold corrected in Hkx, Hky.
  destruct (clamped_peak keypoints k) as [x y]. simpl in *.
  destruct (Hditems k (Z.to_nat y) (Z.to_nat x)) as [Hdx Hdy]; [lia..|].
  destruct (Hsitems k Hk) as [Hsx Hsy].
  rewrite Hdx, Z2Nat.id, Hsx in Hkx by done.
  rewrite Hdy, Z2Nat.id, Hsy in Hky by done.
  rewrite Hself in Hkx, Hky.
  by rewrite Hkx, Hky.
Qed.
End roundtrip.


(** ** The statements at the concrete codec *)

Lemma encode_offset_field_exact_witness :
  shape (displacements (Scenario.the_encoded None)) = [2; 4; 4] ∧
  getitem (displacements (Scenario.the_encoded None)) [0; 1; 2]%Z = Ok (Q2Qc (1 # 2)) ∧
  getitem (displacements (Scenario.the_encoded None)) [1; 1; 2]%Z = Ok (Q2Qc (1 # 2)).
Proof.
  destruct (encode_offset_field_exact Rational.generate_unbiased_gaussian_heatmaps
              8 8 4 4 (Rational.Qc_of_Z 2) Scenario.fresh Scenario.keypoint None
              (Scenario.the_encoded None) Scenario.fresh)
    as (K & scaled & Hscaled & Hsh & Hshape & Hcells & Hkp).
  - reflexivity.
  - vm_compute. reflexivity.
  - vm_compute in Hscaled. injection Hscaled as <-.
    injection Hsh as <-.
    split; [exact Hshape|].
    destruct (Hcells 0 1 2) as [Hx Hy]; [lia..|].
    split.
    + etrans; [exact Hx|]. qc_eq.
    + etrans; [exact Hy|]. qc_eq.
Defined.

Lemma scenario_peaks_in_grid :
  peaks_in_grid 1 4 4 (Scenario.peaks_of (heatmaps (Scenario.the_encoded None))).1.
Proof. intros i Hi. destruct i as [|i]; [|lia]. vm_compute. split; reflexivity. Defined.

Lemma decode_subpixel_correction_witness :
  ∃ kps st',
    decode Rational.get_heatmap_maximum 0 1 Cases.numbered_field
      = (Ok (kps, newaxis (Scenario.peaks_of (heatmaps (Scenario.the_encoded None))).2), st') ∧
    shape kps = [1; 1; 2] ∧
    peak (Scenario.peaks_of (heatmaps (Scenario.the_encoded None))).1 0 = (2, 1)%Z ∧
    getitem Cases.numbered [0; 1; 2]%Z = Ok (Rational.Qc_of_Z 7) ∧
    getitem Cases.numbered [1; 1; 2]%Z = Ok (Rational.Qc_of_Z 23) ∧
    getitem kps [0; 0; 0]%Z = Ok (Rational.Qc_of_Z 18) ∧
    getitem kps [0; 0; 1]%Z = Ok (Rational.Qc_of_Z 48).
Proof.
  destruct (decode_subpixel_correction Rational.get_heatmap_maximum
              Cases.numbered_field 0 1
              (heatmaps (Scenario.the_encoded None)) Cases.numbered 1 4 4
              (Scenario.peaks_of (heatmaps (Scenario.the_encoded None))).1
              (Scenario.peaks_of (heatmaps (Scenario.the_encoded None))).2
              (heatmaps (Scenario.the_encoded None)))
    as (kps & offside_x & offside_y & st' & Hdec & Hshape & _ & Hsx & Hsy & Hall).
  - reflexivity.
  - reflexivity.
  - vm_compute. reflexivity.
  - reflexivity.
  - reflexivity.
  - vm_compute. reflexivity.
  - vm_compute. reflexivity.
  - vm_compute. reflexivity.
  - exact scenario_peaks_in_grid.
  - destruct (Hall 0 2%Z 1%Z) as (ox & oy & Hox & Hoy & _ & _ & Hkx & Hky);
      [lia|vm_compute; reflexivity|lia|lia|].
    assert (Hx7 : getitem Cases.numbered [0; 1; 2]%Z = Ok (Rational.Qc_of_Z 7))
      by (vm_compute; reflexivity).
    assert (Hy23 : getitem Cases.numbered [1; 1; 2]%Z = Ok (Rational.Qc_of_Z 23))
      by (vm_compute; reflexivity).
    change (Z.of_nat 0) with 0%Z in Hox. change (Z.of_nat (1 + 0)) with 1%Z in Hoy.
    rewrite Hx7 in Hox. injection Hox as <-.
    rewrite Hy23 in Hoy. injection Hoy as <-.
    exists kps, st'. split; [exact Hdec|]. split; [exact Hshape|].
    split; [vm_compute; reflexivity|].
    split; [exact Hx7|]. split; [exact Hy23|].
    split.
    + etrans; [exact Hkx|]. qc_eq.
    + etrans; [exact Hky|]. qc_eq.
Defined.

Lemma flat_peaks_in_grid :
  peaks_in_grid 1 4 4 (Scenario.peaks_of (np_full [1; 4; 4] 0%Qc)).1.
Proof. intros i Hi. destruct i as [|i]; [|lia]. vm_compute. split; reflexivity. Defined.

(** The claim C2 as it is stated fails on the all-zero heatmap: the peak
    finder returns (-1, -1), and the decoded coordinate is 2, not 0 times the
    scale factor. *)
Lemma decode_clamped_peak_counterexample :
  peak (Scenario.peaks_of (np_full [1; 4; 4] 0%Qc)).1 0 = (-1, -1)%Z ∧
  ∃ kps scores st',
    decode Rational.get_heatmap_maximum 0 1 Scenario.flat = (Ok (kps, scores), st') ∧
    getitem kps [0; 0; 0]%Z = Ok (Q2Qc 2) ∧
    Q2Qc 2 ≠ fmul (of_int 0) (item (scale_factor Scenario.codec) [0]).
Proof.
  split; [vm_compute; reflexivity|].
  eexists _, _, _. split; [vm_compute; reflexivity|].
  split; [vm_compute; reflexivity|].
  intros Heq. apply (f_equal (λ q, Qnum (this q))) in Heq. vm_compute in Heq. discriminate Heq.
Qed.

Lemma decode_clamped_peak_witness :
  ∃ kps st',
    decode Rational.get_heatmap_maximum 0 1 Cases.numbered_flat
      = (Ok (kps, newaxis (Scenario.peaks_of (np_full [1; 4; 4] 0%Qc)).2), st') ∧
    getitem Cases.numbered [0; 0; 0]%Z = Ok (Rational.Qc_of_Z 1) ∧
    getitem Cases.numbered [1; 0; 0]%Z = Ok (Rational.Qc_of_Z 17) ∧
    getitem kps [0; 0; 0]%Z = Ok (Rational.Qc_of_Z 2) ∧
    getitem kps [0; 0; 1]%Z = Ok (Rational.Qc_of_Z 34).
Proof.
  destruct (decode_clamped_peak Rational.get_heatmap_maximum Cases.numbered_flat 0 1
              (np_full [1; 4; 4] 0%Qc) Cases.numbered 1 4 4
              (Scenario.peaks_of (np_full [1; 4; 4] 0%Qc)).1
              (Scenario.peaks_of (np_full [1; 4; 4] 0%Qc)).2
              (np_full [1; 4; 4] 0%Qc) 0)
    as (kps & offside_x & offside_y & st' & ox & oy & Hdec & _ & _ & Hox & Hoy & _ & _ & Hkx & Hky).
  - reflexivity.
  - reflexivity.
  - reflexivity.
  - reflexivity.
  - reflexivity.
  - vm_compute. reflexivity.
  - vm_compute. reflexivity.
  - exact flat_peaks_in_grid.
  - lia.
  - vm_compute. reflexivity.
  - assert (Hx1 : getitem Cases.numbered [0; 0; 0]%Z = Ok (Rational.Qc_of_Z 1))
      by (vm_compute; reflexivity).
    assert (Hy17 : getitem Cases.numbered [1; 0; 0]%Z = Ok (Rational.Qc_of_Z 17))
      by (vm_compute; reflexivity).
    change (Z.of_nat 0) with 0%Z in Hox. change (Z.of_nat (1 + 0)) with 1%Z in Hoy.
    rewrite Hx1 in Hox. injection Hox as <-.
    rewrite Hy17 in Hoy. injection Hoy as <-.
    exists kps, st'. split; [exact Hdec|].
    split; [exact Hx1|]. split; [exact Hy17|]. split.
    + etrans; [exact Hkx|]. qc_eq.
    + etrans; [exact Hky|]. qc_eq.
Defined.

(** The claim C10 as it is stated fails on the peak location (4, -1) of a
    grid of width 4: its column lies beyond the grid, yet the negative row
    resets both coordinates, the lookup is made at the cell (0, 0) and
    [decode] returns. *)
Lemma decode_upper_bound_unchecked_counterexample :
  peak (Rational.qarray [1; 2] [4; -1]%Z) 0 = (4, -1)%Z ∧
  (Z.of_nat 4 ≤ 4)%Z ∧
  ∃ kps scores st',
    decode Cases.beyond_and_negative_peak_finder 0 1 Cases.ramped
      = (Ok (kps, scores), st').
Proof.
  split; [vm_compute; reflexivity|]. split; [lia|].
  eexists _, _, _. vm_compute. reflexivity.
Qed.

Lemma decode_upper_bound_unchecked_witness :
  (∃ st',
     decode Scenario.off_grid_peak_finder 0 1 (Scenario.holding None)
       = (Raise IndexError, st')) ∧
  clamped_peak (Rational.qarray [1; 2] [4; -1]%Z) 0 = (0, 0)%Z.
Proof.
  split.
  - destruct (decode_upper_bound_unchecked Scenario.off_grid_peak_finder
                (Scenario.holding None) 0 1
                (heatmaps (Scenario.the_encoded None))
                (displacements (Scenario.the_encoded None)) 1 4 4
                (Rational.qarray [1; 2] [4; 1]%Z) (Rational.qarray [1] [1]%Z)
                (heatmaps (Scenario.the_encoded None)))
      as (Hout & _ & _).
    + reflexivity.
    + reflexivity.
    + vm_compute. reflexivity.
    + vm_compute. reflexivity.
    + reflexivity.
    + reflexivity.
    + reflexivity.
    + destruct (Hout 0 4%Z 1%Z) as (offside_x & st' & _ & _ & Hdec);
        [lia|vm_compute; reflexivity|lia|lia|left; vm_compute; discriminate|].
      exists st'. exact Hdec.
  - destruct (decode_upper_bound_unchecked Cases.beyond_and_negative_peak_finder
                Cases.ramped 0 1 (np_full [1; 4; 4] 0%Qc) Cases.ramp 1 4 4
                (Rational.qarray [1; 2] [4; -1]%Z) (Rational.qarray [1] [1]%Z)
                (np_full [1; 4; 4] 0%Qc))
      as (_ & Hreset & _).
    + reflexivity.
    + reflexivity.
    + reflexivity.
    + reflexivity.
    + reflexivity.
    + reflexivity.
    + reflexivity.
    + apply (Hreset 0 4%Z (-1)%Z); [lia|vm_compute; reflexivity|right; lia].
Defined.

(** The claim C6 as it is stated fails with three displacement channels for
    one heatmap channel: [decode] returns. *)
Lemma decode_channel_count_counterexample :
  shape (heatmaps (Scenario.the_encoded None)) = [1; 4; 4] ∧
  shape (Rational.qarray [3; 4; 4] (replicate 48 1%Z)) = [3; 4; 4] ∧
  3 ≠ 2 * 1 ∧
  ∃ r st', decode Rational.get_heatmap_maximum 0 1 Scenario.three_channels = (Ok r, st').
Proof.
  split; [vm_compute; reflexivity|]. split; [reflexivity|]. split; [lia|].
  eexists _, _. vm_compute. reflexivity.
Qed.

Lemma decode_channel_count_unchecked_witness :
  (∃ kps st',
     decode Rational.get_heatmap_maximum 0 1 Scenario.three_channels
       = (Ok (kps, newaxis (Scenario.peaks_of (heatmaps (Scenario.the_encoded None))).2), st')) ∧
  (∃ st',
     decode Rational.get_heatmap_maximum 0 1 Scenario.one_channel = (Raise IndexError, st')).
Proof.
  split.
  - destruct (decode_channel_count_unchecked Rational.get_heatmap_maximum
                Scenario.three_channels 0 1
                (heatmaps (Scenario.the_encoded None))
                (Rational.qarray [3; 4; 4] (replicate 48 1%Z)) 3 1 4 4
                (Scenario.peaks_of (heatmaps (Scenario.the_encoded None))).1
                (Scenario.peaks_of (heatmaps (Scenario.the_encoded None))).2
                (heatmaps (Scenario.the_encoded None)))
      as [_ Hmore].
    + reflexivity.
    + reflexivity.
    + vm_compute. reflexivity.
    + reflexivity.
    + reflexivity.
    + vm_compute. reflexivity.
    + vm_compute. reflexivity.
    + destruct Hmore as (kps & st' & Hdec & _); [lia|exact scenario_peaks_in_grid|].
      exists kps, st'. exact Hdec.
  - destruct (decode_channel_count_unchecked Rational.get_heatmap_maximum
                Scenario.one_channel 0 1
                (heatmaps (Scenario.the_encoded None))
                (Rational.qarray [1; 4; 4] (replicate 16 1%Z)) 1 1 4 4
                (Scenario.peaks_of (heatmaps (Scenario.the_encoded None))).1
                (Scenario.peaks_of (heatmaps (Scenario.the_encoded None))).2
                (heatmaps (Scenario.the_encoded None)))
      as [Hfewer _].
    + reflexivity.
    + reflexivity.
    + vm_compute. reflexivity.
    + reflexivity.
    + reflexivity.
    + vm_compute. reflexivity.
    + vm_compute. reflexivity.
    + apply Hfewer. lia.
Defined.

Lemma encode_single_instance_assertion_witness :
  encode Rational.generate_unbiased_gaussian_heatmaps Scenario.two_instances None
    Scenario.fresh = (Raise AssertionError, Scenario.fresh) ∧
  assert_single_instance Scenario.keypoint = Ok ().
Proof.
  split.
  - destruct (encode_single_instance_assertion Rational.generate_unbiased_gaussian_heatmaps
                Scenario.fresh Scenario.two_instances None 2 [1; 2]) as [Hfail _].
    + reflexivity.
    + apply Hfail. lia.
  - destruct (encode_single_instance_assertion Rational.generate_unbiased_gaussian_heatmaps
                Scenario.fresh Scenario.keypoint None 1 [1; 2]) as [_ Hpass].
    + reflexivity.
    + destruct Hpass as [Hassert _]; [reflexivity|]. exact Hassert.
Defined.

Lemma encode_default_visibility_witness :
  encode Rational.generate_unbiased_gaussian_heatmaps Scenario.keypoint None Scenario.fresh
    = encode Rational.generate_unbiased_gaussian_heatmaps Scenario.keypoint
        (Some (np_full [1; 1] 1%Qc)) Scenario.fresh.
Proof.
  destruct (encode_default_visibility Rational.generate_unbiased_gaussian_heatmaps
              Scenario.fresh Scenario.keypoint 1 1 [2]) as (_ & _ & Heq).
  - reflexivity.
  - exact Heq.
Defined.

Lemma encode_displacements_ignore_visibility_witness :
  displacements (Scenario.the_encoded None)
    = displacements (Scenario.the_encoded (Some Scenario.invisible)) ∧
  heatmaps (Scenario.the_encoded None)
    ≠ heatmaps (Scenario.the_encoded (Some Scenario.invisible)).
Proof.
  split.
  - apply (encode_displacements_ignore_visibility
             Rational.generate_unbiased_gaussian_heatmaps
             Scenario.fresh Scenario.fresh Scenario.keypoint None (Some Scenario.invisible)
             (Scenario.the_encoded None) (Scenario.the_encoded (Some Scenario.invisible))
             Scenario.fresh Scenario.fresh).
    + reflexivity.
    + vm_compute. reflexivity.
    + vm_compute. reflexivity.
  - intros Heq.
    apply (f_equal (λ a : ndarray Qc, (λ q, Qnum (this q)) <$> data a)) in Heq.
    vm_compute in Heq. discriminate Heq.
Defined.

Lemma codec_frame_witness :
  self (decode Scenario.scribbling_peak_finder 0 1 (Scenario.holding None)).2
    = Scenario.codec ∧
  heap (decode Scenario.scribbling_peak_finder 0 1 (Scenario.holding None)).2 !! 0
    = Some (heatmaps (Scenario.the_encoded None)) ∧
  heap (decode Scenario.scribbling_peak_finder 0 1 (Scenario.holding None)).2 !! 1
    = Some (displacements (Scenario.the_encoded None)) ∧
  heap (decode Scenario.scribbling_peak_finder 0 1 (Scenario.holding None)).2 !! 2
    = Some (np_full [1; 4; 4] 0%Qc).
Proof.
  destruct (codec_frame Rational.generate_unbiased_gaussian_heatmaps
              Scenario.scribbling_peak_finder (Scenario.holding None)
              Scenario.keypoint None 0 1) as (_ & Hself & Hheap).
  split; [exact Hself|].
  split; [apply Hheap; reflexivity|].
  split; [apply Hheap; reflexivity|].
  vm_compute. reflexivity.
Defined.

(** * Further properties of the codec *)

(** ** The constructor and the offset field generator on their own *)

Section generator_properties.
Context {F : Type} `{Scalar F}.
Local Arguments item : simpl never.
Local Arguments tabulate : simpl never.

(** X1. The two grids built by [__init__] have shape (H, W), rows first,
    for a heatmap size given as (W, H); [x_range[row, col]] is the column
    and [y_range[row, col]] is the row. *)
Theorem init_coordinate_grids (w h W Hh : Z) (sg : F) :
  let c := __init__ (w, h) (W, Hh) sg in
  shape (x_range c) = [Z.to_nat Hh; Z.to_nat W] ∧
  shape (y_range c) = [Z.to_nat Hh; Z.to_nat W] ∧
  ∀ row col : nat, row < Z.to_nat Hh → col < Z.to_nat W →
    getitem (x_range c) [Z.of_nat row; Z.of_nat col] = Ok (Z.of_nat col) ∧
    getitem (y_range c) [Z.of_nat row; Z.of_nat col] = Ok (Z.of_nat row).
Proof.
  intros c. split; [apply shape_x_range|]. split; [apply shape_y_range|].
  intros row col Hrow Hcol.
  change [Z.of_nat row; Z.of_nat col] with (Z.of_nat <$> [row; col]).
  rewrite !getitem_in_bounds
    by (unfold c; rewrite ?shape_x_range, ?shape_y_range; solve_bounds).
  unfold c. by rewrite item_x_range, item_y_range.
Qed.

(** X2. Called on its own with keypoints of shape (N, K, D), N >= 1 and
    D >= 2, [generate_offside_heatmap] returns a field of shape (2K, H, W)
    whose grid is the one fixed by the constructor, whatever [heatmap_size]
    it is passed; the offsets are those of instance 0 and of its first two
    coordinates: further instances and further coordinates are not read. *)
Theorem generate_offside_heatmap_first_instance isz (W Hh : Z) (sg : F) hsz
    (kps : ndarray F) N K D (st : state F) :
  self st = __init__ isz (W, Hh) sg →
  shape kps = [N; K; D] → 1 ≤ N → 2 ≤ D →
  ∃ d,
    generate_offside_heatmap hsz kps st = (Ok d, st) ∧
    shape d = [2 * K; Z.to_nat Hh; Z.to_nat W] ∧
    ∀ k row col : nat, k < K → row < Z.to_nat Hh → col < Z.to_nat W →
      getitem d [Z.of_nat k; Z.of_nat row; Z.of_nat col]
        = Ok (fsub (item kps [0; k; 0]) (of_int (Z.of_nat col))) ∧
      getitem d [Z.of_nat (K + k); Z.of_nat row; Z.of_nat col]
        = Ok (fsub (item kps [0; k; 1]) (of_int (Z.of_nat row))).
Proof.
  intros Hself Hshape HN HD. destruct N as [|N]; [lia|].
  destruct (generate_offside_heatmap_spec isz W Hh sg hsz kps N K D st Hself Hshape HD)
    as (d & Hrun & Hdsh & Hitems).
  exists d. split; [done|]. split; [rewrite Hdsh; f_equal; lia|].
  intros k row col Hk Hrow Hcol.
  destruct (Hitems k row col Hk Hrow Hcol) as [Hx Hy].
  change [Z.of_nat k; Z.of_nat row; Z.of_nat col] with (Z.of_nat <$> [k; row; col]).
  change [Z.of_nat (K + k); Z.of_nat row; Z.of_nat col]
    with (Z.of_nat <$> [K + k; row; col]).
  rewrite !getitem_in_bounds by (rewrite Hdsh; solve_bounds).
  by rewrite Hx, Hy.
Qed.

(** X3. [generate_offside_heatmap] raises ValueError on keypoints that are
    not three-dimensional, IndexError on keypoints without an instance, and
    IndexError on keypoints with fewer than two coordinates. *)
Theorem generate_offside_heatmap_errors isz (W Hh : Z) (sg : F) hsz
    (kps : ndarray F) (st : state F) :
  self st = __init__ isz (W, Hh) sg →
  (length (shape kps) ≠ 3 →
   generate_offside_heatmap hsz kps st = (Raise ValueError, st)) ∧
  (∀ K D, shape kps = [0; K; D] →
   generate_offside_heatmap hsz kps st = (Raise IndexError, st)) ∧
  (∀ N K D, shape kps = [S N; K; D] → D < 2 →
   generate_offside_heatmap hsz kps st = (Raise IndexError, st)).
Proof.
  intros Hself.
  assert (Hxs : shape (x_range (self st)) = [Z.to_nat Hh; Z.to_nat W])
    by (rewrite Hself; apply shape_x_range).
  destruct hsz as [? ?].
  split; [|split].
  - intros Hrank.
    unfold generate_offside_heatmap, get_self, lift, mbind at 1, M_bind, bind.
    unfold unpack_shape3. by destruct (shape kps) as [|? [|? [|? [|]]]].
  - intros K D Hshape.
    unfold generate_offside_heatmap, get_self, lift, mbind at 1, M_bind, bind.
    unfold unpack_shape3. rewrite Hshape. rstep. unfold subarray. by rewrite Hshape.
  - intros N K D Hshape HD.
    unfold generate_offside_heatmap, get_self, lift, mbind at 1, M_bind, bind.
    unfold unpack_shape3. rewrite Hshape. rstep.
    rewrite (subarray_ok _ (S N) [K; D] 0%Z 0) by done. rstep.
    destruct D as [|[|D]]; [| |lia].
    + unfold select_axis1. done.
    + rewrite (select_axis1_ok _ K 1 [] 0%Z 0) by done. rstep.
      unfold np_subtract_int.
      rewrite (broadcast2_ok _ _ _ [Z.to_nat Hh; Z.to_nat W; K])
        by (cbn; rewrite Hxs; apply broadcast_vec_grid).
      rstep. unfold select_axis1. done.
Qed.
End generator_properties.

(** ** Which keypoints [encode] accepts, and what it hands on *)

Section encode_properties.
Context {F : Type} `{Scalar F}.
Variable gen : Z * Z → ndarray F → ndarray F → F → result (ndarray F * ndarray F).
Local Arguments item : simpl never.
Local Arguments tabulate : simpl never.

(** X4. [encode] returns only for keypoints of shape (1, K, 1) or
    (1, K, 2): any other shape ends in an exception, whatever the heatmap
    generator does. *)
Theorem encode_accepted_shapes (st : state F) kp vis enc st' :
  shape (scale_factor (self st)) = [2] →
  encode gen kp vis st = (Ok enc, st') →
  ∃ K D, shape kp = [1; K; D] ∧ (D = 1 ∨ D = 2).
Proof.
  intros Hscale Henc.
  apply encode_Ok_inv in Henc
    as (-> & Hassert & scaled & hm & wt & w0 & d & Hscaled & _ & Hd & _ & ->).
  destruct (generate_offside_heatmap_rank _ _ _ _ _ Hd) as (N & K & D & Hsh).
  unfold np_true_divide, broadcast2 in Hscaled.
  destruct (broadcast_shapes _ _) as [sh|] eqn:Hbc; [|done].
  injection Hscaled as <-. simpl in Hsh. subst sh.
  rewrite Hscale in Hbc.
  apply broadcast_with_pair in Hbc as [[_ [=]]|(pre & a & Hkp & Ha & Hpre)].
  destruct pre as [|n0 [|n1 [|n2 pre]]]; simplify_eq/=; [|by destruct pre].
  unfold assert_single_instance in Hassert. rewrite Hkp in Hassert.
  case_decide; [|done]. subst. eauto.
Qed.

(** X5. On keypoints of shape (1, K, D) with D other than 1 and 2 (for
    instance three coordinates per keypoint), [encode] raises ValueError
    when it divides by the scale factor, before the heatmap generator is
    called. *)
Theorem encode_rejects_other_coordinate_counts (st : state F) kp vis K D :
  shape (scale_factor (self st)) = [2] →
  shape kp = [1; K; D] → D ≠ 1 → D ≠ 2 →
  encode gen kp vis st = (Raise ValueError, st).
Proof.
  intros Hscale Hshape HD1 HD2.
  unfold encode, get_self, lift, mbind, M_bind, bind, assert_single_instance.
  rewrite Hshape. simpl.
  unfold np_true_divide, broadcast2, broadcast_shapes. rewrite Hshape, Hscale. simpl.
  by rewrite !decide_False by lia.
Qed.

Lemma scaled_single_coordinate (w h W Hh : Z) (sg : F) (kp : ndarray F) K :
  shape kp = [1; K; 1] →
  ∃ scaled,
    np_true_divide kp (scale_factor (__init__ (w, h) (W, Hh) sg)) = Ok scaled ∧
    shape scaled = [1; K; 2] ∧
    ∀ k, k < K →
      item scaled [0; k; 0] = fdiv (item kp [0; k; 0]) (fdiv (of_int w) (of_int W)) ∧
      item scaled [0; k; 1] = fdiv (item kp [0; k; 0]) (fdiv (of_int h) (of_int Hh)).
Proof.
  intros Hshape. unfold np_true_divide.
  rewrite (broadcast2_ok _ _ _ [1; K; 2]) by (by rewrite Hshape).
  eexists. split; [done|]. split; [done|].
  intros k Hk.
  assert (Hb : ∀ d i, i < d → (if decide (d = 1) then 0 else i) = i).
  { intros d i Hi. destruct (decide (d = 1)); lia. }
  split; rewrite item_tabulate by solve_bounds; rewrite Hshape; unfold bindex; simpl;
    rewrite !Hb by lia; done.
Qed.

(** X6. Keypoints with a single coordinate, shape (1, K, 1), are not
    rejected: the division by the two-element scale factor broadcasts the
    coordinate, and the field holds v / sx - col in channel k and
    v / sy - row in channel K + k for the one coordinate v of keypoint k. *)
Theorem encode_single_coordinate_broadcast (w h W Hh : Z) (sg : F) (st : state F)
    kp vis K enc st' :
  self st = __init__ (w, h) (W, Hh) sg →
  shape kp = [1; K; 1] →
  encode gen kp vis st = (Ok enc, st') →
  shape (displacements enc) = [2 * K; Z.to_nat Hh; Z.to_nat W] ∧
  ∀ k row col : nat, k < K → row < Z.to_nat Hh → col < Z.to_nat W →
    let v := item kp [0; k; 0] in
    getitem (displacements enc) [Z.of_nat k; Z.of_nat row; Z.of_nat col]
      = Ok (fsub (fdiv v (fdiv (of_int w) (of_int W))) (of_int (Z.of_nat col))) ∧
    getitem (displacements enc) [Z.of_nat (K + k); Z.of_nat row; Z.of_nat col]
      = Ok (fsub (fdiv v (fdiv (of_int h) (of_int Hh))) (of_int (Z.of_nat row))).
Proof.
  intros Hself Hshape Henc.
  apply encode_Ok_inv in Henc
    as (-> & _ & scaled & hm & wt & w0 & d & Hscaled & _ & Hd & _ & ->).
  destruct (scaled_single_coordinate w h W Hh sg kp K Hshape)
    as (scaled' & Hscaled' & Hsh & Hitems).
  rewrite Hself, Hscaled' in Hscaled. injection Hscaled as <-.
  destruct (generate_offside_heatmap_spec (w, h) W Hh sg
              (heatmap_size (self st)) scaled' 0 K 2 st Hself Hsh)
    as (d' & Hd' & Hdsh & Hditems); [lia|].
  rewrite Hd' in Hd. injection Hd as <-. simpl.
  split; [rewrite Hdsh; f_equal; lia|].
  intros k row col Hk Hrow Hcol. cbv zeta.
  destruct (Hditems k row col Hk Hrow Hcol) as [Hx Hy].
  destruct (Hitems k Hk) as [Hkx Hky].
  change [Z.of_nat k; Z.of_nat row; Z.of_nat col] with (Z.of_nat <$> [k; row; col]).
  change [Z.of_nat (K + k); Z.of_nat row; Z.of_nat col]
    with (Z.of_nat <$> [K + k; row; col]).
  rewrite !getitem_in_bounds by (rewrite Hdsh; solve_bounds).
  by rewrite Hx, Hy, Hkx, Hky.
Qed.

(** X7. For keypoints of shape (1, K, 2), [encode] asks the generator for
    the heatmaps of the scaled keypoints, with the heatmap size and sigma of
    the codec and the visibilities it was given (all ones when omitted).  An
    exception of the generator is the exception of [encode]; otherwise
    [encode] returns the generator's heatmaps as they are and the first row
    of its weights, or raises IndexError when the weights have no row. *)
Theorem encode_generator_results (w h W Hh : Z) (sg : F) (st : state F) kp vis K :
  self st = __init__ (w, h) (W, Hh) sg →
  shape kp = [1; K; 2] →
  ∃ scaled,
    np_true_divide kp (scale_factor (self st)) = Ok scaled ∧
    (∀ e, gen (W, Hh) scaled (visible_or_ones kp vis) sg = Raise e →
          encode gen kp vis st = (Raise e, st)) ∧
    (∀ hm wts, gen (W, Hh) scaled (visible_or_ones kp vis) sg = Ok (hm, wts) →
       (∀ w0, subarray wts 0 = Ok w0 →
          ∃ d, encode gen kp vis st = (Ok (Encoded hm w0 d), st)) ∧
       (shape wts = [] ∨ (∃ s, shape wts = 0 :: s) →
          encode gen kp vis st = (Raise IndexError, st))).
Proof.
  intros Hself Hshape.
  destruct (scaled_keypoints_spec w h W Hh sg kp K Hshape)
    as (scaled & Hscaled & Hsh & _).
  rewrite <- Hself in Hscaled.
  destruct (generate_offside_heatmap_spec (w, h) W Hh sg
              (heatmap_size (self st)) scaled 0 K 2 st Hself Hsh)
    as (d & Hd & _); [lia|].
  assert (Hassert : assert_single_instance kp = Ok ())
    by (unfold assert_single_instance; by rewrite Hshape).
  assert (Hhs : heatmap_size (self st) = (W, Hh)) by (by rewrite Hself).
  assert (Hsg : sigma (self st) = sg) by (by rewrite Hself).
  exists scaled. split; [done|]. split.
  - intros e Hgen.
    unfold encode, get_self, lift, mbind, M_bind, bind, mret, M_ret, ret.
    fold (visible_or_ones kp vis).
    by rewrite Hassert, Hscaled, Hhs, Hsg, Hgen.
  - intros hm wts Hgen. split.
    + intros w0 Hw0. exists d.
      apply (encode_Ok_intro gen kp vis st scaled hm wts w0 d); try done.
      by rewrite Hhs, Hsg.
    + intros Hwts.
      unfold encode, get_self, lift, mbind, M_bind, bind, mret, M_ret, ret.
      fold (visible_or_ones kp vis).
      rewrite Hassert, Hscaled, Hhs, Hsg, Hgen. rewrite Hhs in Hd. rewrite Hd.
      unfold subarray. by destruct Hwts as [->|[s ->]].
Qed.
End encode_properties.

(** ** What [decode] checks, and what it leaves to numpy *)

Section decode_properties.
Context {F : Type} `{Scalar F}.
Variable ghm : ndarray F → result (ndarray F * ndarray F) * ndarray F.
Local Arguments item : simpl never.
Local Arguments tabulate : simpl never.

(** [K, H, W = heatmaps.shape] on an array that is not of rank 3. *)
Lemma decode_run_rank encoded offside (st : state F) hm off :
  heap st !! encoded = Some hm →
  heap st !! offside = Some off →
  length (shape hm) ≠ 3 →
  decode ghm encoded offside st =
    (Raise ValueError, State (self st) (heap st ++ [hm; off])).
Proof.
  intros He Ho Hrank.
  unfold decode.
  rewrite run_bind. unfold get_self at 1. cbv beta iota.
  rewrite run_bind, (copy_run encoded st hm He). cbv beta iota.
  rewrite run_bind, (copy_run offside _ off)
    by (simpl; rewrite lookup_app_l; [done|by eapply lookup_lt_Some]).
  cbv beta iota. simpl heap. simpl self.
  set (st1 := State (self st) ((heap st ++ [hm]) ++ [off])).
  assert (Hh1 : heap st1 !! length (heap st) = Some hm).
  { simpl. rewrite lookup_app_l by (rewrite length_app; simpl; lia).
    by rewrite lookup_app_r, Nat.sub_diag by lia. }
  rewrite run_bind, (read_run _ _ hm Hh1). cbv beta iota.
  rewrite run_bind. unfold lift at 1, unpack_shape3.
  unfold st1. rewrite <- (assoc_L (++)). simpl.
  by destruct (shape hm) as [|? [|? [|? [|]]]].
Qed.

Lemma unpack_row2_columns (a : ndarray Z) R c i :
  shape a = [R; c] → i < R → c ≠ 2 → unpack_row2 a i = Raise ValueError.
Proof.
  intros Hs Hi Hc. unfold unpack_row2.
  rewrite (subarray_ok _ R [c] _ i) by (by rewrite ?norm_index_nat).
  rstep. unfold tabulate. cbn [shape data].
  by destruct c as [|[|[|c]]].
Qed.

Lemma norm_indices_excess sh idx : length sh < length idx → norm_indices sh idx = None.
Proof.
  revert idx. induction sh as [|n sh IH]; intros [|i idx] Hlen; simpl in *; try lia; [done|].
  rewrite IH by lia. by destruct (norm_index n i).
Qed.

(** More indices than axes. *)
Lemma getitem_excess_indices (a : ndarray F) idx :
  length (shape a) < length idx → getitem a idx = Raise IndexError.
Proof.
  intros Hlen. unfold getitem.
  by rewrite take_ge, norm_indices_excess by lia.
Qed.

(** X8. A negative coordinate on either side resets both: when the peak of
    keypoint k has x < 0 or y < 0, the other coordinate is discarded as
    well and the keypoint is decoded from the cell (row 0, col 0) of its
    two channels. *)
Theorem decode_negative_coordinate_resets_both (st : state F) encoded offside hm off
    K Hn Wn keypoints scores hm' (k : nat) (x y : Z) :
  heap st !! encoded = Some hm →
  heap st !! offside = Some off →
  shape hm = [K; Hn; Wn] →
  shape off = [2 * K; Hn; Wn] →
  shape (scale_factor (self st)) = [2] →
  ghm hm = (Ok (keypoints, scores), hm') →
  shape keypoints = [K; 2] →
  peaks_in_grid K Hn Wn keypoints →
  k < K → peak keypoints k = (x, y) → (x < 0 ∨ y < 0)%Z →
  ∃ kps st',
    decode ghm encoded offside st = (Ok (kps, newaxis scores), st') ∧
    getitem kps [0; Z.of_nat k; 0]%Z
      = Ok (fmul (fadd (of_int 0) (item off [k; 0; 0]))
                 (item (scale_factor (self st)) [0])) ∧
    getitem kps [0; Z.of_nat k; 1]%Z
      = Ok (fmul (fadd (of_int 0) (item off [K + k; 0; 0]))
                 (item (scale_factor (self st)) [1])).
Proof.
  intros He Ho Hhm Hoff Hscale Hres Hkp Hgrid Hk Hp Hneg.
  rewrite (decode_run ghm encoded offside st hm off K Hn Wn _ hm' He Ho Hhm Hres).
  destruct (decode_values_ok (2 * K) K Hn Wn off keypoints Hoff Hkp
              (scale_factor (self st)) scores Hscale)
    as (kps & Hrun & Hshape & Hitems).
  { intros i Hi. split; [lia|]. by apply Hgrid. }
  assert (Hc : clamped_peak keypoints k = (0, 0)%Z).
  { apply clamped_peak_negative. by rewrite Hp. }
  destruct (Hitems k Hk) as [Hkx Hky].
  unfold corrected in Hkx, Hky. rewrite Hc in Hkx, Hky. simpl in Hkx, Hky.
  eexists kps, _. split; [by rewrite Hrun|].
  change [0%Z; Z.of_nat k; 0%Z] with (Z.of_nat <$> [0; k; 0]).
  change [0%Z; Z.of_nat k; 1%Z] with (Z.of_nat <$> [0; k; 1]).
  rewrite !getitem_in_bounds by (rewrite Hshape; solve_bounds).
  by rewrite Hkx, Hky.
Qed.

(** X9. Heatmaps that are not of rank 3 make [decode] raise ValueError at
    [K, H, W = heatmaps.shape]: after the two copies were made and before
    the peak finder is called, so the copy of the heatmaps still has the
    caller's contents. *)
Theorem decode_rejects_heatmaps_rank (st : state F) encoded offside hm off :
  heap st !! encoded = Some hm →
  heap st !! offside = Some off →
  length (shape hm) ≠ 3 →
  decode ghm encoded offside st =
    (Raise ValueError, State (self st) (heap st ++ [hm; off])).
Proof. apply decode_run_rank. Qed.

(** X10. An exception of the peak finder is the exception of [decode]. *)
Theorem decode_propagates_peak_finder_exception (st : state F) encoded offside hm off
    K Hn Wn e hm' :
  heap st !! encoded = Some hm →
  heap st !! offside = Some off →
  shape hm = [K; Hn; Wn] →
  ghm hm = (Raise e, hm') →
  decode ghm encoded offside st =
    (Raise e, State (self st) (heap st ++ [hm'; off])).
Proof.
  intros He Ho Hhm Hres.
  by rewrite (decode_run ghm encoded offside st hm off K Hn Wn _ hm' He Ho Hhm Hres).
Qed.

(** X11. Whatever its outcome, [decode] adds exactly two array objects to
    the store: the copy of the heatmaps, holding what the peak finder left
    in it (the caller's contents when the peak finder was not reached), and
    the copy of the displacements, unchanged. *)
Theorem decode_allocates_two_copies (st : state F) encoded offside hm off :
  heap st !! encoded = Some hm →
  heap st !! offside = Some off →
  (decode ghm encoded offside st).2 =
    State (self st)
      (heap st ++ [if decide (length (shape hm) = 3) then (ghm hm).2 else hm; off]).
Proof.
  intros He Ho. case_decide as Hrank.
  - destruct (shape hm) as [|K [|Hn [|Wn [|]]]] eqn:Hhm; simplify_eq/=.
    destruct (ghm hm) as [res hm'] eqn:Hres.
    by rewrite (decode_run ghm encoded offside st hm off K Hn Wn _ hm' He Ho Hhm Hres).
  - by rewrite (decode_run_rank encoded offside st hm off He Ho Hrank).
Qed.

(** X12. Of the codec's configuration, [decode] reads the scale factor
    only: two codecs with the same scale factor, whatever their input
    size, heatmap size, sigma and coordinate grids, decode the same arrays
    to the same result and leave the same arrays behind. *)
Theorem decode_reads_scale_factor_only (st1 st2 : state F) encoded offside hm off :
  heap st1 = heap st2 →
  scale_factor (self st1) = scale_factor (self st2) →
  heap st1 !! encoded = Some hm →
  heap st1 !! offside = Some off →
  (decode ghm encoded offside st1).1 = (decode ghm encoded offside st2).1 ∧
  heap (decode ghm encoded offside st1).2 = heap (decode ghm encoded offside st2).2.
Proof.
  intros Hheap Hscale He Ho.
  assert (He2 : heap st2 !! encoded = Some hm) by (by rewrite <- Hheap).
  assert (Ho2 : heap st2 !! offside = Some off) by (by rewrite <- Hheap).
  destruct (decide (length (shape hm) = 3)) as [Hrank|Hrank].
  - destruct (shape hm) as [|K [|Hn [|Wn [|]]]] eqn:Hhm; simplify_eq/=.
    destruct (ghm hm) as [res hm'] eqn:Hres.
    rewrite (decode_run ghm encoded offside st1 hm off K Hn Wn _ hm' He Ho Hhm Hres).
    rewrite (decode_run ghm encoded offside st2 hm off K Hn Wn _ hm' He2 Ho2 Hhm Hres).
    simpl. by rewrite Hscale, Hheap.
  - rewrite (decode_run_rank encoded offside st1 hm off He Ho Hrank).
    rewrite (decode_run_rank encoded offside st2 hm off He2 Ho2 Hrank).
    simpl. by rewrite Hheap.
Qed.

(** X13. [decode] relies on the peak finder for the layout of the
    locations.  With at least one channel and locations that come as rows
    of c values, c other than 2: when the displacement array has at least
    one axis, the unpacking [[x, y] = keypoints_interger[i]] of the first
    keypoint raises ValueError; when it has none, the slice
    [offside[:K, ...]] raises IndexError before any location is
    unpacked. *)
Theorem decode_rejects_location_columns (st : state F) encoded offside hm off
    K Hn Wn keypoints scores hm' R c :
  heap st !! encoded = Some hm →
  heap st !! offside = Some off →
  shape hm = [S K; Hn; Wn] →
  ghm hm = (Ok (keypoints, scores), hm') →
  shape keypoints = [S R; c] → c ≠ 2 →
  (shape off ≠ [] →
   decode ghm encoded offside st =
     (Raise ValueError, State (self st) (heap st ++ [hm'; off]))) ∧
  (shape off = [] →
   decode ghm encoded offside st =
     (Raise IndexError, State (self st) (heap st ++ [hm'; off]))).
Proof.
  intros He Ho Hhm Hres Hkp Hc.
  rewrite (decode_run ghm encoded offside st hm off (S K) Hn Wn _ hm' He Ho Hhm Hres).
  unfold decode_values. rstep. unfold slice_to, slice_from.
  split; intros Hoff.
  - f_equal. destruct (shape off) as [|n s]; [done|]. rstep.
    unfold for_range. rewrite <- cons_seq. cbn [for_each].
    unfold decode_keypoint at 1.
    by rewrite (unpack_row2_columns _ (S R) c 0) by (done || lia).
  - by rewrite Hoff.
Qed.

(** X14. [decode] does not check the rank of the displacement field
    either: with fewer than three axes (and at least one keypoint, whose
    location is a row of two values) the lookup [offside_x[i, y, x]] of the
    first keypoint, or already the slice [offside[:K]] of an array without
    axes, raises IndexError. *)
Theorem decode_rejects_displacement_rank (st : state F) encoded offside hm off
    K Hn Wn keypoints scores hm' R :
  heap st !! encoded = Some hm →
  heap st !! offside = Some off →
  shape hm = [S K; Hn; Wn] →
  length (shape off) < 3 →
  ghm hm = (Ok (keypoints, scores), hm') →
  shape keypoints = [S R; 2] →
  decode ghm encoded offside st =
    (Raise IndexError, State (self st) (heap st ++ [hm'; off])).
Proof.
  intros He Ho Hhm Hoff Hres Hkp.
  rewrite (decode_run ghm encoded offside st hm off (S K) Hn Wn _ hm' He Ho Hhm Hres).
  f_equal. unfold decode_values. rstep.
  unfold slice_to, slice_from.
  destruct (shape off) as [|n s] eqn:Hshape; [done|]. rstep.
  unfold for_range. rewrite <- cons_seq. cbn [for_each].
  unfold decode_keypoint at 1.
  rewrite (unpack_row2_astype keypoints (S R) 0 Hkp) by lia. rstep.
  destruct (if bool_decide (_ ∨ _) then _ else _) as [x y].
  by rewrite (getitem_excess_indices (tabulate (S K `min` n :: s) (item off)))
    by (rewrite shape_tabulate; simpl in *; lia).
Qed.
End decode_properties.

(** ** [decode] after [encode] *)

Section composition.
Context {F : Type} `{Scalar F}.
Variable gen : Z * Z → ndarray F → ndarray F → F → result (ndarray F * ndarray F).
Variable ghm : ndarray F → result (ndarray F * ndarray F) * ndarray F.

(** X15. When [encode] returns for keypoints of shape (1, K, 2) and its
    heatmaps and displacements are handed to [decode], with heatmaps of
    shape (K, H, W) and K peak locations of two values that lie in the grid
    after the clamp: [decode] returns keypoints of shape (1, K, 2), and the
    coordinate of keypoint k is computed from the coordinate v of the
    encoded keypoint, the scale s and the clamped peak coordinate p as
    (p + (v / s - p)) * s, in the arithmetic of the arrays.  The heatmaps
    and the visibilities enter only through the peak. *)
Theorem encode_then_decode_value (w h W Hh : Z) (sg : F) (st st1 : state F) kp vis K
    enc keypoints scores hm' :
  self st = __init__ (w, h) (W, Hh) sg →
  shape kp = [1; K; 2] →
  encode gen kp vis st = (Ok enc, st1) →
  shape (heatmaps enc) = [K; Z.to_nat Hh; Z.to_nat W] →
  ghm (heatmaps enc) = (Ok (keypoints, scores), hm') →
  shape keypoints = [K; 2] →
  peaks_in_grid K (Z.to_nat Hh) (Z.to_nat W) keypoints →
  ∃ kps st',
    encode_then_decode gen ghm kp vis st = (Ok (kps, newaxis scores), st') ∧
    shape kps = [1; K; 2] ∧
    ∀ k, k < K →
      let x := (clamped_peak keypoints k).1 in
      let y := (clamped_peak keypoints k).2 in
      let sx := fdiv (of_int w) (of_int W) in
      let sy := fdiv (of_int h) (of_int Hh) in
      getitem kps [0; Z.of_nat k; 0]%Z
        = Ok (fmul (fadd (of_int x) (fsub (fdiv (item kp [0; k; 0]) sx) (of_int x))) sx) ∧
      getitem kps [0; Z.of_nat k; 1]%Z
        = Ok (fmul (fadd (of_int y) (fsub (fdiv (item kp [0; k; 1]) sy) (of_int y))) sy).
Proof.
  intros Hself Hshape Henc Hhm Hres Hkp Hgrid.
  destruct (encode_then_decode_run gen ghm w h W Hh sg st st1 kp vis K enc
              keypoints scores hm' Hself Hshape Henc Hhm Hres Hkp Hgrid)
    as (kps & st' & Hrun & Hkshape & Hitems).
  exists kps, st'. split; [done|]. split; [done|].
  intros k Hk. cbv zeta. destruct (Hitems k Hk) as [Hx Hy].
  change [0%Z; Z.of_nat k; 0%Z] with (Z.of_nat <$> [0; k; 0]).
  change [0%Z; Z.of_nat k; 1%Z] with (Z.of_nat <$> [0; k; 1]).
  rewrite !getitem_in_bounds by (rewrite Hkshape; solve_bounds).
  by rewrite Hx, Hy.
Qed.
End composition.


(** ** The statements on concrete inputs *)

Lemma generate_offside_heatmap_first_instance_witness :
  ∃ d,
    generate_offside_heatmap (7, 9)%Z Cases.two_instances_3d Scenario.fresh
      = (Ok d, Scenario.fresh) ∧
    shape d = [2; 4; 4] ∧
    getitem d [0; 1; 2]%Z = Ok (Rational.Qc_of_Z 3) ∧
    getitem d [1; 1; 2]%Z = Ok (Rational.Qc_of_Z 2).
Proof.
  destruct (generate_offside_heatmap_first_instance (8, 8)%Z 4 4 (Rational.Qc_of_Z 2)
              (7, 9)%Z Cases.two_instances_3d 2 1 3 Scenario.fresh)
    as (d & Hrun & Hshape & Hcells).
  - reflexivity.
  - reflexivity.
  - lia.
  - lia.
  - destruct (Hcells 0 1 2) as [Hx Hy]; [lia..|].
    exists d. split; [exact Hrun|]. split; [exact Hshape|]. split.
    + etrans; [exact Hx|]. qc_eq.
    + etrans; [exact Hy|]. qc_eq.
Defined.

Lemma generate_offside_heatmap_errors_witness :
  generate_offside_heatmap (4, 4)%Z Cases.no_instance_axis Scenario.fresh
    = (Raise ValueError, Scenario.fresh) ∧
  generate_offside_heatmap (4, 4)%Z Cases.no_instance Scenario.fresh
    = (Raise IndexError, Scenario.fresh) ∧
  generate_offside_heatmap (4, 4)%Z Cases.single_coordinate Scenario.fresh
    = (Raise IndexError, Scenario.fresh).
Proof.
  split; [|split].
  - destruct (generate_offside_heatmap_errors (8, 8)%Z 4 4 (Rational.Qc_of_Z 2)
                (4, 4)%Z Cases.no_instance_axis Scenario.fresh) as (Hrank & _ & _).
    + reflexivity.
    + apply Hrank. simpl. lia.
  - destruct (generate_offside_heatmap_errors (8, 8)%Z 4 4 (Rational.Qc_of_Z 2)
                (4, 4)%Z Cases.no_instance Scenario.fresh) as (_ & Hempty & _).
    + reflexivity.
    + apply (Hempty 1 2). reflexivity.
  - destruct (generate_offside_heatmap_errors (8, 8)%Z 4 4 (Rational.Qc_of_Z 2)
                (4, 4)%Z Cases.single_coordinate Scenario.fresh) as (_ & _ & Hcoord).
    + reflexivity.
    + apply (Hcoord 0 1 1); [reflexivity|lia].
Defined.

Lemma encode_accepted_shapes_witness :
  ∃ K D, shape Scenario.keypoint = [1; K; D] ∧ (D = 1 ∨ D = 2).
Proof.
  apply (encode_accepted_shapes Rational.generate_unbiased_gaussian_heatmaps
           Scenario.fresh Scenario.keypoint None (Scenario.the_encoded None) Scenario.fresh).
  - reflexivity.
  - vm_compute. reflexivity.
Defined.

Lemma encode_rejects_other_coordinate_counts_witness :
  encode Rational.generate_unbiased_gaussian_heatmaps Cases.three_coordinates None
    Scenario.fresh = (Raise ValueError, Scenario.fresh).
Proof.
  apply (encode_rejects_other_coordinate_counts Rational.generate_unbiased_gaussian_heatmaps
           Scenario.fresh Cases.three_coordinates None 1 3).
  - reflexivity.
  - reflexivity.
  - lia.
  - lia.
Defined.

Lemma encode_single_coordinate_broadcast_witness :
  ∃ enc,
    encode Rational.generate_unbiased_gaussian_heatmaps Cases.single_coordinate None
      Scenario.fresh = (Ok enc, Scenario.fresh) ∧
    shape (displacements enc) = [2; 4; 4] ∧
    getitem (displacements enc) [0; 1; 2]%Z = Ok (Rational.Qc_of_Z 1) ∧
    getitem (displacements enc) [1; 1; 2]%Z = Ok (Rational.Qc_of_Z 2).
Proof.
  assert (Henc : ∃ enc,
            encode Rational.generate_unbiased_gaussian_heatmaps Cases.single_coordinate None
              Scenario.fresh = (Ok enc, Scenario.fresh))
    by (eexists; vm_compute; reflexivity).
  destruct Henc as [enc Henc].
  destruct (encode_single_coordinate_broadcast Rational.generate_unbiased_gaussian_heatmaps
              8 8 4 4 (Rational.Qc_of_Z 2) Scenario.fresh Cases.single_coordinate None 1
              enc Scenario.fresh) as [Hshape Hcells].
  - reflexivity.
  - reflexivity.
  - exact Henc.
  - destruct (Hcells 0 1 2) as [Hx Hy]; [lia..|].
    exists enc. split; [exact Henc|]. split; [exact Hshape|]. split.
    + etrans; [exact Hx|]. qc_eq.
    + etrans; [exact Hy|]. qc_eq.
Defined.

Lemma encode_generator_results_witness :
  encode Cases.failing_generator Scenario.keypoint None Scenario.fresh
    = (Raise TypeError, Scenario.fresh) ∧
  ∃ d,
    encode Rational.generate_unbiased_gaussian_heatmaps Scenario.keypoint None Scenario.fresh
      = (Ok (Encoded (heatmaps (Scenario.the_encoded None))
                     (keypoint_weights (Scenario.the_encoded None)) d), Scenario.fresh).
Proof.
  split.
  - destruct (encode_generator_results Cases.failing_generator 8 8 4 4 (Rational.Qc_of_Z 2)
                Scenario.fresh Scenario.keypoint None 1)
      as (scaled & _ & Hraise & _).
    + reflexivity.
    + reflexivity.
    + apply Hraise. reflexivity.
  - destruct (encode_generator_results Rational.generate_unbiased_gaussian_heatmaps
                8 8 4 4 (Rational.Qc_of_Z 2) Scenario.fresh Scenario.keypoint None 1)
      as (scaled & Hscaled & _ & Hok).
    + reflexivity.
    + reflexivity.
    + vm_compute in Hscaled. injection Hscaled as <-.
      destruct (Hok (heatmaps (Scenario.the_encoded None)) (np_copy (np_full [1; 1] 1%Qc)))
        as [Hret _]; [vm_compute; reflexivity|].
      apply Hret. vm_compute. reflexivity.
Defined.

Lemma ramped_peaks_in_grid : peaks_in_grid 1 4 4 (Rational.qarray [1; 2] [3; -1]%Z).
Proof. intros i Hi. destruct i as [|i]; [|lia]. vm_compute. split; reflexivity. Defined.

Lemma decode_negative_coordinate_resets_both_witness :
  ∃ kps st',
    decode Cases.one_sided_peak_finder 0 1 Cases.ramped
      = (Ok (kps, newaxis (Rational.qarray [1] [1]%Z)), st') ∧
    getitem kps [0; 0; 0]%Z = Ok (Rational.Qc_of_Z 2) ∧
    getitem kps [0; 0; 1]%Z = Ok (Rational.Qc_of_Z 2).
Proof.
  destruct (decode_negative_coordinate_resets_both Cases.one_sided_peak_finder Cases.ramped 0 1
              (np_full [1; 4; 4] 0%Qc) Cases.ramp 1 4 4
              (Rational.qarray [1; 2] [3; -1]%Z) (Rational.qarray [1] [1]%Z)
              (np_full [1; 4; 4] 0%Qc) 0 3%Z (-1)%Z)
    as (kps & st' & Hdec & Hkx & Hky).
  - reflexivity.
  - reflexivity.
  - reflexivity.
  - reflexivity.
  - reflexivity.
  - reflexivity.
  - reflexivity.
  - exact ramped_peaks_in_grid.
  - lia.
  - vm_compute. reflexivity.
  - right. lia.
  - exists kps, st'. split; [exact Hdec|]. split.
    + etrans; [exact Hkx|]. qc_eq.
    + etrans; [exact Hky|]. qc_eq.
Defined.

Lemma decode_rejects_heatmaps_rank_witness :
  decode Rational.get_heatmap_maximum 0 1 Cases.rank_two
    = (Raise ValueError,
       State Scenario.codec
         [np_full [4; 4] 0%Qc; Cases.ramp; np_full [4; 4] 0%Qc; Cases.ramp]).
Proof.
  apply (decode_rejects_heatmaps_rank Rational.get_heatmap_maximum Cases.rank_two 0 1
           (np_full [4; 4] 0%Qc) Cases.ramp).
  - reflexivity.
  - reflexivity.
  - simpl. lia.
Defined.

Lemma decode_propagates_peak_finder_exception_witness :
  decode Cases.failing_peak_finder 0 1 Cases.ramped
    = (Raise TypeError,
       State Scenario.codec
         [np_full [1; 4; 4] 0%Qc; Cases.ramp; np_full [1; 4; 4] 0%Qc; Cases.ramp]).
Proof.
  apply (decode_propagates_peak_finder_exception Cases.failing_peak_finder Cases.ramped 0 1
           (np_full [1; 4; 4] 0%Qc) Cases.ramp 1 4 4).
  - reflexivity.
  - reflexivity.
  - reflexivity.
  - reflexivity.
Defined.

Lemma decode_allocates_two_copies_witness :
  (decode Scenario.scribbling_peak_finder 0 1 (Scenario.holding None)).2
    = State Scenario.codec
        [heatmaps (Scenario.the_encoded None); displacements (Scenario.the_encoded None);
         np_full [1; 4; 4] 0%Qc; displacements (Scenario.the_encoded None)].
Proof.
  etrans.
  - apply (decode_allocates_two_copies Scenario.scribbling_peak_finder (Scenario.holding None)
             0 1 (heatmaps (Scenario.the_encoded None))
             (displacements (Scenario.the_encoded None))).
    + reflexivity.
    + reflexivity.
  - vm_compute. reflexivity.
Defined.

Lemma scale_factor_other_codec :
  scale_factor (self (Scenario.holding None)) = scale_factor (self Cases.holding_other).
Proof. simpl. do 2 f_equal; [|f_equal]; apply Qc_is_canon; reflexivity. Defined.

Lemma decode_reads_scale_factor_only_witness :
  heatmap_size (self (Scenario.holding None)) ≠ heatmap_size (self Cases.holding_other) ∧
  (decode Rational.get_heatmap_maximum 0 1 (Scenario.holding None)).1
    = (decode Rational.get_heatmap_maximum 0 1 Cases.holding_other).1 ∧
  heap (decode Rational.get_heatmap_maximum 0 1 (Scenario.holding None)).2
    = heap (decode Rational.get_heatmap_maximum 0 1 Cases.holding_other).2.
Proof.
  split; [discriminate|].
  apply (decode_reads_scale_factor_only Rational.get_heatmap_maximum
           (Scenario.holding None) Cases.holding_other 0 1
           (heatmaps (Scenario.the_encoded None))
           (displacements (Scenario.the_encoded None))).
  - reflexivity.
  - exact scale_factor_other_codec.
  - reflexivity.
  - reflexivity.
Defined.

Lemma decode_rejects_location_columns_witness :
  (∃ st',
     decode Cases.three_column_peak_finder 0 1 (Scenario.holding None)
       = (Raise ValueError, st')) ∧
  (∃ st',
     decode Cases.three_column_peak_finder 0 1 Cases.no_axes = (Raise IndexError, st')).
Proof.
  split.
  - destruct (decode_rejects_location_columns Cases.three_column_peak_finder
                (Scenario.holding None) 0 1
                (heatmaps (Scenario.the_encoded None))
                (displacements (Scenario.the_encoded None)) 0 4 4
                (Rational.qarray [1; 3] [2; 1; 0]%Z) (Rational.qarray [1] [1]%Z)
                (heatmaps (Scenario.the_encoded None)) 0 3) as [Haxes _].
    + reflexivity.
    + reflexivity.
    + vm_compute. reflexivity.
    + reflexivity.
    + reflexivity.
    + lia.
    + eexists. apply Haxes. vm_compute. discriminate.
  - destruct (decode_rejects_location_columns Cases.three_column_peak_finder
                Cases.no_axes 0 1
                (heatmaps (Scenario.the_encoded None))
                (Rational.qarray [] [1]%Z) 0 4 4
                (Rational.qarray [1; 3] [2; 1; 0]%Z) (Rational.qarray [1] [1]%Z)
                (heatmaps (Scenario.the_encoded None)) 0 3) as [_ Hnone].
    + reflexivity.
    + reflexivity.
    + vm_compute. reflexivity.
    + reflexivity.
    + reflexivity.
    + lia.
    + eexists. apply Hnone. reflexivity.
Defined.

Lemma decode_rejects_displacement_rank_witness :
  ∃ st',
    decode Rational.get_heatmap_maximum 0 1 Cases.flat_field = (Raise IndexError, st').
Proof.
  eexists.
  apply (decode_rejects_displacement_rank Rational.get_heatmap_maximum Cases.flat_field 0 1
           (heatmaps (Scenario.the_encoded None))
           (Rational.qarray [2; 4] (replicate 8 1%Z)) 0 4 4
           (Scenario.peaks_of (heatmaps (Scenario.the_encoded None))).1
           (Scenario.peaks_of (heatmaps (Scenario.the_encoded None))).2
           (heatmaps (Scenario.the_encoded None)) 0).
  - reflexivity.
  - reflexivity.
  - vm_compute. reflexivity.
  - simpl. lia.
  - vm_compute. reflexivity.
  - vm_compute. reflexivity.
Defined.

Lemma encode_then_decode_value_witness :
  ∃ kps scores st',
    encode_then_decode Rational.generate_unbiased_gaussian_heatmaps
      Rational.get_heatmap_maximum Scenario.keypoint None Scenario.fresh
      = (Ok (kps, scores), st') ∧
    clamped_peak (Scenario.peaks_of (heatmaps (Scenario.the_encoded None))).1 0 = (2, 1)%Z ∧
    getitem kps [0; 0; 0]%Z = Ok (Rational.Qc_of_Z 5) ∧
    getitem kps [0; 0; 1]%Z = Ok (Rational.Qc_of_Z 3).
Proof.
  destruct (encode_then_decode_value Rational.generate_unbiased_gaussian_heatmaps
              Rational.get_heatmap_maximum 8 8 4 4 (Rational.Qc_of_Z 2)
              Scenario.fresh Scenario.fresh Scenario.keypoint None 1
              (Scenario.the_encoded None)
              (Scenario.peaks_of (heatmaps (Scenario.the_encoded None))).1
              (Scenario.peaks_of (heatmaps (Scenario.the_encoded None))).2
              (heatmaps (Scenario.the_encoded None)))
    as (kps & st' & Hrun & _ & Hall).
  - reflexivity.
  - reflexivity.
  - vm_compute. reflexivity.
  - vm_compute. reflexivity.
  - vm_compute. reflexivity.
  - vm_compute. reflexivity.
  - exact scenario_peaks_in_grid.
  - destruct (Hall 0) as [Hx Hy]; [lia|].
    exists kps, (newaxis (Scenario.peaks_of (heatmaps (Scenario.the_encoded None))).2), st'.
    split; [exact Hrun|]. split; [vm_compute; reflexivity|]. split.
    + etrans; [exact Hx|]. qc_eq.
    + etrans; [exact Hy|]. qc_eq.
Defined.



(** Locations of shape (K, 2, 1) unpack into two one-element arrays, which
    index the field as their elements do; the rescaling then broadcasts
    each decoded coordinate against both entries of the scale factor. *)
Lemma decode_one_element_rows :
  ∃ kps scores st',
    decode Cases.column_peak_finder 0 1 Cases.numbered_field = (Ok (kps, scores), st') ∧
    shape kps = [1; 1; 2; 2] ∧
    getitem kps [0; 0; 0; 0]%Z = Ok (Rational.Qc_of_Z 18) ∧
    getitem kps [0; 0; 0; 1]%Z = Ok (Rational.Qc_of_Z 18) ∧
    getitem kps [0; 0; 1; 0]%Z = Ok (Rational.Qc_of_Z 48) ∧
    getitem kps [0; 0; 1; 1]%Z = Ok (Rational.Qc_of_Z 48).
Proof.
  eexists _, _, _. split; [vm_compute; reflexivity|]. split; [reflexivity|].
  repeat split; vm_compute; qc_eq.
Qed.
